(** * Bedrock agent query backend: [api/main.py]

    A shallow embedding of the FastAPI service in
    [backend_aws_bedrock_rag/src/api/main.py] and the properties of its
    request validation, response normalisation and fan-out loop.

    Python values are modelled by the inductive type [value]; a Python
    [dict] with string keys is a [gmap string value].  Code that can
    raise returns an [outcome]; code that talks to the outside world
    (the import machinery, boto3, the uuid generator, the remote agent)
    runs in a state-and-exception monad over a [world] that also records
    every call made to those collaborators. *)

From Stdlib Require Import ZArith String Ascii List DecimalString.
From stdpp Require Import gmap strings list fin_maps.

Local Open Scope string_scope.

(** ** Python values *)

(** The payloads are typed [Dict[str, Any]]: JSON-like data, plus opaque
    objects (boto3 hands out event streams, for instance). *)
#[local] Unset Elimination Schemes.
Inductive value : Type :=
| VNone
| VBool (b : bool)
| VInt (n : Z)
| VStr (s : string)
| VList (l : list value)
| VDict (d : gmap string value)
| VObject (repr : string).
#[local] Set Elimination Schemes.

Abbreviation dict := (gmap string value).

(** Python truth value testing, as used by [or]. *)
Definition truthy (v : value) : bool :=
  match v with
  | VNone => false
  | VBool b => b
  | VInt n => negb (n =? 0)%Z
  | VStr s => negb (String.length s =? 0)%nat
  | VList l => negb (length l =? 0)%nat
  | VDict d => negb (size d =? 0)%nat
  | VObject _ => true
  end.

(** [a or b] *)
Definition py_or (a b : value) : value := if truthy a then a else b.

(** What the JSON encoder of the response accepts: [None], booleans,
    integers, strings, and lists and dicts of such values; an opaque
    object (an event stream, say) anywhere inside makes it fail. *)
Fixpoint json_serialisable (v : value) : bool :=
  match v with
  | VNone | VBool _ | VInt _ | VStr _ => true
  | VList l => forallb json_serialisable l
  | VDict d => map_fold (fun _ v' acc => json_serialisable v' && acc) true d
  | VObject _ => false
  end.

(** [isinstance(v, dict)] *)
Definition isinstance_dict (v : value) : bool :=
  match v with VDict _ => true | _ => false end.

(** ** Exceptions *)

(** Instances of [Exception].  [HTTPException] is FastAPI's,
    [RuntimeError] is raised by [_get_bedrock_runtime_client], [KeyError]
    by a subscript on a missing key; [Raised cls msg] is any other
    instance (an [ImportError], a botocore error, ...) of class [cls]
    whose [str()] is [msg]. *)
Inductive exn : Type :=
| HTTPException (status_code : Z) (detail : string)
| RuntimeError (msg : string)
| KeyError (key : string)
| Raised (cls : string) (msg : string).

Definition string_of_Z (z : Z) : string := NilZero.string_of_int (Z.to_int z).

(** [str(e)].  Starlette renders an [HTTPException] as
    ["<status_code>: <detail>"]; [KeyError] shows the [repr] of its key. *)
Definition str (e : exn) : string :=
  match e with
  | HTTPException c d => string_of_Z c ++ ": " ++ d
  | RuntimeError m => m
  | KeyError k => "'" ++ k ++ "'"
  | Raised _ m => m
  end.

Inductive outcome (A : Type) : Type :=
| Ok (a : A)
| Raise (e : exn).
Arguments Ok {A} a.
Arguments Raise {A} e.

Definition obind {A B} (o : outcome A) (f : A -> outcome B) : outcome B :=
  match o with
  | Ok a => f a
  | Raise e => Raise e
  end.

Declare Scope outcome_scope.
Delimit Scope outcome_scope with outcome.
Notation "x <- c ;; k" := (obind c (fun x => k))
  (at level 20, c at level 99, k at level 200, only parsing) : outcome_scope.

(** ** Dict operations *)

(** [k in d] *)
Definition contains (k : string) (d : dict) : bool :=
  match d !! k with Some _ => true | None => false end.

(** [d[k]]: raises [KeyError] on a missing key. *)
Definition getitem (d : dict) (k : string) : outcome value :=
  match d !! k with Some v => Ok v | None => Raise (KeyError k) end.

(** [d.get(k)]: [None] on a missing key. *)
Definition dict_get (d : dict) (k : string) : value :=
  match d !! k with Some v => v | None => VNone end.

(** ** Response normalisation ([_invoke_bedrock_agent], lines 123-136) *)

Definition known_keys : list string :=
  ["sessionId"; "invocationId"; "contentType"; "completion"].

(** [for k in (...): if k in response: result[k] = response[k]] *)
Fixpoint copy_known (ks : list string) (response result : dict) : outcome dict :=
  match ks with
  | [] => Ok result
  | k :: ks' =>
      if contains k response then
        (v <- getitem response k ;;
         copy_known ks' response (<[k := v]> result))%outcome
      else copy_known ks' response result
  end.

(** [response["completion"].get("text") or
     response["completion"].get("content") or None].  A value without a
    [get] method raises [AttributeError]; line 130 keeps such values
    away. *)
Definition completion_text (response : dict) : outcome value :=
  (c1 <- getitem response "completion" ;;
   match c1 with
   | VDict d1 =>
       let a := dict_get d1 "text" in
       if truthy a then Ok a
       else
         c2 <- getitem response "completion" ;;
         match c2 with
         | VDict d2 =>
             let b := dict_get d2 "content" in
             Ok (py_or b VNone)
         | _ => Raise (Raised "AttributeError" "object has no attribute 'get'")
         end
   | _ => Raise (Raised "AttributeError" "object has no attribute 'get'")
   end)%outcome.

(** [if "completion" in response and isinstance(response["completion"], dict)] *)
Definition completion_is_dict (response : dict) : outcome bool :=
  if contains "completion" response then
    (c <- getitem response "completion" ;; Ok (isinstance_dict c))%outcome
  else Ok false.

(** The body of [_invoke_bedrock_agent] after the remote call returned
    [response]. *)
Definition normalize_response (response : dict) : outcome dict :=
  (result <- copy_known known_keys response ∅ ;;
   is_dict <- completion_is_dict response ;;
   if is_dict then
     text <- completion_text response ;;
     match text with
     | VNone => Ok result
     | _ => Ok (<["text" := text]> result)
     end
   else Ok result)%outcome.

(** What line 132 computes when [response["completion"]] is a dict: the
    first of its ["text"] and ["content"] entries that is truthy. *)
Definition extracted_text (response : dict) : option value :=
  match response !! "completion" with
  | Some (VDict c) =>
      if truthy (dict_get c "text") then Some (dict_get c "text")
      else if truthy (dict_get c "content") then Some (dict_get c "content")
      else None
  | _ => None
  end.

(** A completion object carries text under one of the two aliases. *)
Definition text_bearing (c : dict) : bool :=
  truthy (dict_get c "text") || truthy (dict_get c "content").

Definition hello_response : dict :=
  <["completion" := VDict (<["text" := VStr "hello"]> ∅)]> ∅.

(** ** Request models (pydantic) *)

(** The JSON body as the caller submits it. *)
Record AgentJson := {
  json_role : string;
  json_agent_id : string;
  json_alias_id : string;
  json_region : string
}.

Record RequestJson := {
  json_agents : list AgentJson;
  json_query : string
}.

(** [AgentInput], [QueryAgentsRequest], [AgentResponse] and
    [QueryAgentsResponse] after validation. *)
Record AgentInput := {
  role : string;
  agent_id : string;
  alias_id : string;
  region : string
}.

Record QueryAgentsRequest := {
  agents : list AgentInput;
  query : string
}.

Record AgentResponse := {
  r_role : string;
  r_agent_id : string;
  r_alias_id : string;
  r_region : string;
  success : bool;
  output : option dict;
  error : option string
}.

Record QueryAgentsResponse := {
  resp_query : string;
  results : list AgentResponse
}.

Section Validation.

(** The whitespace class of [str.strip]; it belongs to the validation
    library, so the development is parametric in it. *)
Variable isspace : ascii -> bool.

Fixpoint lstrip (s : string) : string :=
  match s with
  | EmptyString => EmptyString
  | String c s' => if isspace c then lstrip s' else s
  end.

Fixpoint rstrip (s : string) : string :=
  match s with
  | EmptyString => EmptyString
  | String c s' =>
      match rstrip s' with
      | EmptyString => if isspace c then EmptyString else String c EmptyString
      | r => String c r
      end
  end.

(** [s.strip()] *)
Definition strip (s : string) : string := rstrip (lstrip s).

(** Every character of [s] is whitespace ([s] may be empty). *)
Fixpoint blank (s : string) : bool :=
  match s with
  | EmptyString => true
  | String c s' => isspace c && blank s'
  end.

(** [constr(strip_whitespace=True, min_length=1)]: strip, then check the
    length of what is left. *)
Definition constr_strip_min1 (s : string) : option string :=
  let s' := strip s in
  if (1 <=? String.length s')%nat then Some s' else None.

(** Validation of one [AgentInput] (lines 8-13). *)
Definition validate_AgentInput (a : AgentJson) : option AgentInput :=
  match constr_strip_min1 (json_role a),
        constr_strip_min1 (json_agent_id a),
        constr_strip_min1 (json_alias_id a),
        constr_strip_min1 (json_region a) with
  | Some r, Some i, Some al, Some rg =>
      Some {| role := r; agent_id := i; alias_id := al; region := rg |}
  | _, _, _, _ => None
  end.

(** [agents: List[AgentInput]]: every item must validate. *)
Fixpoint validate_agents (l : list AgentJson) : option (list AgentInput) :=
  match l with
  | [] => Some []
  | a :: l' =>
      match validate_AgentInput a, validate_agents l' with
      | Some a', Some l'' => Some (a' :: l'')
      | _, _ => None
      end
  end.

(** Validation of a [QueryAgentsRequest] (lines 16-19); [None] is a
    pydantic validation error. *)
Definition validate_QueryAgentsRequest (b : RequestJson) : option QueryAgentsRequest :=
  match validate_agents (json_agents b), constr_strip_min1 (json_query b) with
  | Some l, Some q => Some {| agents := l; query := q |}
  | _, _ => None
  end.

(** A descriptor with a field that is empty or all whitespace. *)
Definition blank_field (a : AgentJson) : Prop :=
  blank (json_role a) = true \/ blank (json_agent_id a) = true \/
  blank (json_alias_id a) = true \/ blank (json_region a) = true.

(** What validation turns an accepted descriptor into. *)
Definition stripped (a : AgentJson) : AgentInput :=
  {| role := strip (json_role a);
     agent_id := strip (json_agent_id a);
     alias_id := strip (json_alias_id a);
     region := strip (json_region a) |}.

End Validation.

(** ** The outside world *)

(** Calls made to the collaborators, in the order they happen. *)
Inductive event : Type :=
| ImportBoto3
| Boto3Client (service_name region_name : string)
| Uuid4 (token : string)
| InvokeAgent (agentId agentAliasId sessionId inputText : string).

(** What the service consumes and does not own: the import of [boto3],
    [boto3.client], [str(uuid.uuid4())] and [client.invoke_agent].  Each is
    an arbitrary function of the state [env] of the environment. *)
Record Collaborators : Type := {
  env : Type;
  client : Type;
  import_boto3 : env -> outcome unit * env;
  boto3_client : string -> string -> env -> outcome client * env;
  uuid4 : env -> string * env;
  invoke_agent :
    client -> string -> string -> string -> string -> env -> outcome dict * env
}.

Record world (C : Collaborators) : Type := {
  w_env : env C;
  w_log : list event
}.
Arguments w_env {C} w.
Arguments w_log {C} w.

(** A process that has made no call yet. *)
Definition fresh_world (C : Collaborators) (e : env C) : world C :=
  {| w_env := e; w_log := [] |}.

(** The tokens handed to [invoke_agent] as [sessionId], oldest first. *)
Fixpoint session_ids (log : list event) : list string :=
  match log with
  | [] => []
  | InvokeAgent _ _ sid _ :: log' => sid :: session_ids log'
  | _ :: log' => session_ids log'
  end.

(** The tokens produced by [uuid.uuid4()], oldest first. *)
Fixpoint uuid_draws (log : list event) : list string :=
  match log with
  | [] => []
  | Uuid4 t :: log' => t :: uuid_draws log'
  | _ :: log' => uuid_draws log'
  end.

(** The [inputText] of every [invoke_agent] call. *)
Fixpoint sent_queries (log : list event) : list string :=
  match log with
  | [] => []
  | InvokeAgent _ _ _ q :: log' => q :: sent_queries log'
  | _ :: log' => sent_queries log'
  end.

(** How many times [_get_bedrock_runtime_client] was entered: it starts
    with the import of [boto3]. *)
Fixpoint attempts (log : list event) : nat :=
  match log with
  | [] => 0
  | ImportBoto3 :: log' => S (attempts log')
  | _ :: log' => attempts log'
  end.

(** ** HTTP responses *)

Inductive content : Type :=
| JsonResults (r : QueryAgentsResponse)
| JsonDetail (detail : string)
| JsonValidationErrors
| InternalServerError.

Record http_response : Type := {
  status : Z;
  body : content
}.

(** The results carried by a response, if any. *)
Definition results_of (r : http_response) : list AgentResponse :=
  match body r with
  | JsonResults q => results q
  | _ => []
  end.

(** The [output] of a result can be encoded ([None] always can). *)
Definition output_serialisable (r : AgentResponse) : bool :=
  match output r with
  | Some d => json_serialisable (VDict d)
  | None => true
  end.

(** Every result of the response can be encoded. *)
Definition response_serialisable (R : QueryAgentsResponse) : bool :=
  forallb output_serialisable (results R).

(** ** The service *)

Section Service.

Variable isspace : ascii -> bool.
Variable C : Collaborators.

(** State and exceptions. *)
Definition M (A : Type) : Type := world C -> outcome A * world C.

Definition ret {A} (a : A) : M A := fun w => (Ok a, w).

Definition bind {A B} (m : M A) (f : A -> M B) : M B :=
  fun w =>
    match m w with
    | (Ok a, w') => f a w'
    | (Raise e, w') => (Raise e, w')
    end.

Definition raise {A} (e : exn) : M A := fun w => (Raise e, w).

(** [try: m  except Exception as e: h e] *)
Definition try_except {A} (m : M A) (h : exn -> M A) : M A :=
  fun w =>
    match m w with
    | (Ok a, w') => (Ok a, w')
    | (Raise e, w') => h e w'
    end.

Definition lift {A} (o : outcome A) : M A := fun w => (o, w).

(** Run a collaborator on the environment and record the call. *)
Definition call {A} (f : env C -> A * env C) (ev : A -> event) : world C -> A * world C :=
  fun w =>
    let (a, e') := f (w_env w) in
    (a, {| w_env := e'; w_log := w_log w ++ [ev a] |}).

Definition do_import_boto3 : M unit :=
  call (import_boto3 C) (fun _ => ImportBoto3).

Definition do_boto3_client (service_name region_name : string) : M (client C) :=
  call (boto3_client C service_name region_name)
       (fun _ => Boto3Client service_name region_name).

Definition do_uuid4 : M string :=
  fun w => let (t, w') := call (uuid4 C) Uuid4 w in (Ok t, w').

Definition do_invoke_agent (c : client C)
    (agentId agentAliasId sessionId inputText : string) : M dict :=
  call (invoke_agent C c agentId agentAliasId sessionId inputText)
       (fun _ => InvokeAgent agentId agentAliasId sessionId inputText).

Declare Scope io_scope.
Delimit Scope io_scope with io.
Notation "x <- c ;; k" := (bind c (fun x => k))
  (at level 20, c at level 99, k at level 200, only parsing) : io_scope.

(** Lines 74-88. *)
Definition _get_bedrock_runtime_client (region : string) : M (client C) :=
  (_ <- try_except do_import_boto3
         (fun e => raise (RuntimeError
            "boto3 is required to call AWS Bedrock. Please ensure boto3 is installed.")) ;;
   do_boto3_client "bedrock-agent-runtime" region)%io.

(** Lines 91-136. *)
Definition _invoke_bedrock_agent (region agent_id alias_id query : string) : M dict :=
  (client <- _get_bedrock_runtime_client region ;;
   session_id <- do_uuid4 ;;
   response <- do_invoke_agent client agent_id alias_id session_id query ;;
   lift (normalize_response response))%io.

Definition AgentResponse_ok (agent : AgentInput) (out : dict) : AgentResponse :=
  {| r_role := role agent; r_agent_id := agent_id agent;
     r_alias_id := alias_id agent; r_region := region agent;
     success := true; output := Some out; error := None |}.

Definition AgentResponse_failed (agent : AgentInput) (e : exn) : AgentResponse :=
  {| r_role := role agent; r_agent_id := agent_id agent;
     r_alias_id := alias_id agent; r_region := region agent;
     success := false; output := None; error := Some (str e) |}.

(** The loop of lines 176-207; [results] is the list built so far. *)
Fixpoint for_agent_in (l : list AgentInput) (q : string)
    (results : list AgentResponse) : M (list AgentResponse) :=
  match l with
  | [] => ret results
  | agent :: l' =>
      (results' <-
         try_except
           (output <- _invoke_bedrock_agent (region agent) (agent_id agent)
                        (alias_id agent) q ;;
            ret (results ++ [AgentResponse_ok agent output])%list)
           (fun e => ret (results ++ [AgentResponse_failed agent e])%list) ;;
       for_agent_in l' q results')%io
  end.

(** Lines 156-209. *)
Definition query_agents (payload : QueryAgentsRequest) : M QueryAgentsResponse :=
  match agents payload with
  | [] => raise (HTTPException 400 "At least one agent must be provided.")
  | _ =>
      (results <- for_agent_in (agents payload) (query payload) [] ;;
       ret {| resp_query := query payload; results := results |})%io
  end.

(** The route [POST /query_agents] as FastAPI serves it: the body is
    validated against [QueryAgentsRequest] before the handler is entered
    and a body that fails is answered with status 422 (the application
    registers no handler of its own for validation errors); an
    [HTTPException] becomes a response with its status code and any other
    exception a 500.  The model the handler returns is encoded as
    [response_model=QueryAgentsResponse] after the handler has returned,
    outside its [try]: it is answered with status 200 when it can be
    encoded, and with a 500 when an [output] holds a value that cannot
    (lines 124-126 copy [response["completion"]] as it is). *)
Definition post_query_agents (b : RequestJson) (w : world C) : http_response * world C :=
  match validate_QueryAgentsRequest isspace b with
  | None => ({| status := 422; body := JsonValidationErrors |}, w)
  | Some payload =>
      match query_agents payload w with
      | (Ok r, w') =>
          if response_serialisable r
          then ({| status := 200; body := JsonResults r |}, w')
          else ({| status := 500; body := InternalServerError |}, w')
      | (Raise (HTTPException c d), w') => ({| status := c; body := JsonDetail d |}, w')
      | (Raise _, w') => ({| status := 500; body := InternalServerError |}, w')
      end
  end.

(** Requests served one after the other by the same process. *)
Fixpoint serve (reqs : list RequestJson) (w : world C) : list http_response * world C :=
  match reqs with
  | [] => ([], w)
  | b :: reqs' =>
      let (r, w') := post_query_agents b w in
      let (rs, w'') := serve reqs' w' in
      (r :: rs, w'')
  end.

(** The call log of a process that started in the environment [e] and
    served [reqs]. *)
Definition served_log (reqs : list RequestJson) (e : env C) : list event :=
  w_log (snd (serve reqs (fresh_world C e))).

(** Each agent invoked in turn, whatever the others did: the outcomes of
    [_invoke_bedrock_agent] over the list, with the world threaded. *)
Fixpoint invocations (l : list AgentInput) (q : string) (w : world C)
    : list (outcome dict) * world C :=
  match l with
  | [] => ([], w)
  | agent :: l' =>
      let (o, w') :=
        _invoke_bedrock_agent (region agent) (agent_id agent) (alias_id agent) q w in
      let (os, w'') := invocations l' q w' in
      (o :: os, w'')
  end.

(** The [AgentResponse] recorded for an agent whose invocation ended in [o]. *)
Definition to_AgentResponse (agent : AgentInput) (o : outcome dict) : AgentResponse :=
  match o with
  | Ok out => AgentResponse_ok agent out
  | Raise e => AgentResponse_failed agent e
  end.

End Service.

Arguments ret {C A} a.
Arguments raise {C A} e.

(** The descriptor echoed by a result. *)
Definition descriptor_of (r : AgentResponse) : AgentInput :=
  {| role := r_role r; agent_id := r_agent_id r;
     alias_id := r_alias_id r; region := r_region r |}.

(** [output] and [error] are gated by [success]. *)
Definition exclusive (r : AgentResponse) : Prop :=
  (success r = true -> error r = None /\ is_Some (output r)) /\
  (success r = false -> output r = None /\ is_Some (error r)).

(** The calls one run of [_invoke_bedrock_agent] makes: it stops after the
    import when [boto3] is missing, after [boto3.client] when no client
    can be built, and otherwise draws one token and calls the agent with
    it. *)
Inductive call_events (region agent_id alias_id q : string) : list event -> Prop :=
| calls_import_failed :
    call_events region agent_id alias_id q [ImportBoto3]
| calls_client_failed :
    call_events region agent_id alias_id q
      [ImportBoto3; Boto3Client "bedrock-agent-runtime" region]
| calls_invoked (t : string) :
    call_events region agent_id alias_id q
      [ImportBoto3; Boto3Client "bedrock-agent-runtime" region;
       Uuid4 t; InvokeAgent agent_id alias_id t q].

(** The calls of a batch of [n] invocations with the query [q]. *)
Definition batch_events (n : nat) (q : string) (evs : list event) : Prop :=
  attempts evs = n /\ session_ids evs = uuid_draws evs /\
  Forall (eq q) (sent_queries evs).

Definition boto3_required : string :=
  "boto3 is required to call AWS Bedrock. Please ensure boto3 is installed.".

Definition no_agents : string := "At least one agent must be provided.".

(** The outcome of an invocation can be encoded once recorded: a raised
    exception always can, it is recorded as a string. *)
Definition outcome_serialisable (o : outcome dict) : bool :=
  match o with
  | Ok out => json_serialisable (VDict out)
  | Raise _ => true
  end.

(** ** Sample instances *)

(** ASCII whitespace: tab, line feed, vertical tab, form feed, carriage
    return and space. *)
Definition ascii_isspace (c : ascii) : bool :=
  let n := nat_of_ascii c in
  ((9 <=? n)%nat && (n <=? 13)%nat) || (n =? 32)%nat.

Definition string_of_nat (n : nat) : string := NilZero.string_of_uint (Nat.to_uint n).

Definition down_error : exn :=
  Raised "ClientError"
    "An error occurred (ResourceNotFoundException) when calling the InvokeAgent operation".

Definition mute_error : exn := Raised "TimeoutError" "".

Definition sample_answer (sid q : string) : dict :=
  <["sessionId" := VStr sid]>
    (<["completion" := VDict (<["text" := VStr ("echo: " ++ q)]> ∅)]> ∅).

(** A small environment: its state counts the tokens handed out; the
    agent ["DOWN"] answers with a service error, the agent ["MUTE"] with an
    exception that carries no message, a region with a space in it is
    refused by [boto3.client], every other call succeeds. *)
Definition stub_aws : Collaborators := {|
  env := nat;
  client := string;
  import_boto3 := fun n => (Ok tt, n);
  boto3_client := fun _ region_name n =>
    if String.eqb region_name "no where"
    then (Raise (Raised "InvalidRegionError"
                   "Provided region_name 'no where' doesn't match a supported format."), n)
    else (Ok region_name, n);
  uuid4 := fun n => ("uuid-" ++ string_of_nat n, S n);
  invoke_agent := fun _ agentId _ sid q n =>
    if String.eqb agentId "DOWN"
    then (Raise down_error, n)
    else if String.eqb agentId "MUTE"
    then (Raise mute_error, n)
    else (Ok (sample_answer sid q), n)
|}.

(** The same environment with a remote side that answers with a stream:
    the completion is an opaque object. *)
Definition stream_answer (sid : string) : dict :=
  <["sessionId" := VStr sid]> (<["completion" := VObject "<EventStream>"]> ∅).

Definition streaming_aws : Collaborators := {|
  env := nat;
  client := string;
  import_boto3 := import_boto3 stub_aws;
  boto3_client := boto3_client stub_aws;
  uuid4 := uuid4 stub_aws;
  invoke_agent := fun _ agentId _ sid q n =>
    if String.eqb agentId "DOWN"
    then (Raise down_error, n)
    else (Ok (stream_answer sid), n)
|}.

(** The same environment without [boto3] installed. *)
Definition no_boto3 : Collaborators := {|
  env := nat;
  client := string;
  import_boto3 := fun n =>
    (Raise (Raised "ModuleNotFoundError" "No module named 'boto3'"), n);
  boto3_client := boto3_client stub_aws;
  uuid4 := uuid4 stub_aws;
  invoke_agent := invoke_agent stub_aws
|}.

Definition agent_A : AgentInput :=
  {| role := "Gastroenterologist"; agent_id := "AGENT1"; alias_id := "ALIAS1";
     region := "us-east-1" |}.

Definition agent_down : AgentInput :=
  {| role := "Cardiologist"; agent_id := "DOWN"; alias_id := "ALIAS2";
     region := "eu-west-1" |}.

Definition agent_mute : AgentInput :=
  {| role := "Neurologist"; agent_id := "MUTE"; alias_id := "ALIAS3";
     region := "us-west-2" |}.

Definition agent_B : AgentInput :=
  {| role := "Dermatologist"; agent_id := "AGENT4"; alias_id := "ALIAS4";
     region := "us-east-1" |}.

Definition agent_A_json : AgentJson :=
  {| json_role := "  Gastroenterologist "; json_agent_id := " AGENT1";
     json_alias_id := "ALIAS1  "; json_region := " us-east-1 " |}.

Definition agent_down_json : AgentJson :=
  {| json_role := "Cardiologist"; json_agent_id := "DOWN";
     json_alias_id := "ALIAS2"; json_region := "eu-west-1" |}.

Definition agent_B_json : AgentJson :=
  {| json_role := "Dermatologist"; json_agent_id := "AGENT4";
     json_alias_id := "ALIAS4"; json_region := "us-east-1" |}.

(** Three agents, the second one failing, and a query with blanks around. *)
Definition sample_json : RequestJson :=
  {| json_agents := [agent_A_json; agent_down_json; agent_B_json];
     json_query := "  what is reflux? " |}.

Definition sample_payload : QueryAgentsRequest :=
  {| agents := [agent_A; agent_down; agent_B]; query := "what is reflux?" |}.

(** A failing agent followed by a working one. *)
Definition down_then_B_json : RequestJson :=
  {| json_agents := [agent_down_json; agent_B_json];
     json_query := "what is reflux?" |}.

Definition down_then_B : QueryAgentsRequest :=
  {| agents := [agent_down; agent_B]; query := "what is reflux?" |}.

(** No agent, and a query made of spaces. *)
Definition empty_blank_json : RequestJson :=
  {| json_agents := []; json_query := "   " |}.

(** No agent, and a proper query. *)
Definition empty_json : RequestJson :=
  {| json_agents := []; json_query := " what is reflux? " |}.

(** A well-formed agent with a query made of spaces. *)
Definition blank_query_json : RequestJson :=
  {| json_agents := [agent_B_json]; json_query := "   " |}.

Definition no_agents_payload : QueryAgentsRequest :=
  {| agents := []; query := "what is reflux?" |}.

Definition mute_payload : QueryAgentsRequest :=
  {| agents := [agent_mute]; query := "what is reflux?" |}.

(** ** Further notions *)

(** A validated request written back as a JSON body. *)
Definition json_of_AgentInput (a : AgentInput) : AgentJson :=
  {| json_role := role a; json_agent_id := agent_id a;
     json_alias_id := alias_id a; json_region := region a |}.

Definition json_of_request (p : QueryAgentsRequest) : RequestJson :=
  {| json_agents := json_of_AgentInput <$> agents p; json_query := query p |}.

(** No field of the descriptor is empty or all whitespace. *)
Definition nonblank_agent (isspace : ascii -> bool) (a : AgentInput) : Prop :=
  blank isspace (role a) = false /\ blank isspace (agent_id a) = false /\
  blank isspace (alias_id a) = false /\ blank isspace (region a) = false.

Definition is_ok {A} (o : outcome A) : bool :=
  match o with Ok _ => true | Raise _ => false end.

(** How many results report [success]. *)
Fixpoint successes (l : list AgentResponse) : nat :=
  match l with
  | [] => 0
  | r :: l' => (if success r then 1 else 0) + successes l'
  end.

(** The [(agentId, agentAliasId, inputText)] of every [invoke_agent] call. *)
Fixpoint invoke_targets (log : list event) : list (string * string * string) :=
  match log with
  | [] => []
  | InvokeAgent a al _ q :: log' => (a, al, q) :: invoke_targets log'
  | _ :: log' => invoke_targets log'
  end.

(** The [(service_name, region_name)] of every [boto3.client] call. *)
Fixpoint client_requests (log : list event) : list (string * string) :=
  match log with
  | [] => []
  | Boto3Client s r :: log' => (s, r) :: client_requests log'
  | _ :: log' => client_requests log'
  end.

Definition target_of (q : string) (agent : AgentInput) : string * string * string :=
  (agent_id agent, alias_id agent, q).

Definition client_of (agent : AgentInput) : string * string :=
  ("bedrock-agent-runtime", region agent).

(** The outcome of one invocation together with the calls it made. *)
Inductive invocation_trace (agent : AgentInput) (q : string)
    : outcome dict -> list event -> Prop :=
| trace_no_boto3 :
    invocation_trace agent q (Raise (RuntimeError boto3_required)) [ImportBoto3]
| trace_no_client (e : exn) :
    invocation_trace agent q (Raise e)
      [ImportBoto3; Boto3Client "bedrock-agent-runtime" (region agent)]
| trace_called (t : string) (o : outcome dict) :
    invocation_trace agent q o
      [ImportBoto3; Boto3Client "bedrock-agent-runtime" (region agent);
       Uuid4 t; InvokeAgent (agent_id agent) (alias_id agent) t q].

(** The outcomes of a batch together with its calls: one group of calls
    per agent, in the order of the agents. *)
Inductive batch_trace (q : string)
    : list AgentInput -> list (outcome dict) -> list event -> Prop :=
| batch_trace_nil : batch_trace q [] [] []
| batch_trace_cons agent l o os evs evs' :
    invocation_trace agent q o evs ->
    batch_trace q l os evs' ->
    batch_trace q (agent :: l) (o :: os) (evs ++ evs')%list.

(** The result recorded for every agent when [boto3] is missing. *)
Definition boto3_missing (agent : AgentInput) : AgentResponse :=
  AgentResponse_failed agent (RuntimeError boto3_required).

(** The [hello] response with a field the normaliser does not know. *)
Definition noisy_response : dict := <["traceId" := VStr "abc"]> hello_response.

Definition padded_json : RequestJson :=
  {| json_agents := [agent_A_json]; json_query := "  what is reflux? " |}.

(** * Properties *)

(** ** Stripping and field validation *)

Section ValidationFacts.

Variable isspace : ascii -> bool.

Lemma lstrip_blank (s : string) : blank isspace s = true -> lstrip isspace s = "".
Proof.
  induction s as [|c s IH]; simpl; [done|].
  intros [Hc Hs]%andb_prop. rewrite Hc. auto.
Qed.

Lemma strip_blank (s : string) : blank isspace s = true -> strip isspace s = "".
Proof. intros H. unfold strip. by rewrite lstrip_blank. Qed.

Lemma rstrip_empty_blank (s : string) : rstrip isspace s = "" -> blank isspace s = true.
Proof.
  induction s as [|c s IH]; simpl; [done|].
  destruct (rstrip isspace s); [|discriminate].
  destruct (isspace c); [|discriminate]. auto.
Qed.

Lemma lstrip_head (s : string) :
  match lstrip isspace s with
  | EmptyString => True
  | String c _ => isspace c = false
  end.
Proof.
  induction s as [|c s IH]; simpl; [done|].
  destruct (isspace c) eqn:Hc; simpl; [done|]. by rewrite Hc.
Qed.

Lemma lstrip_empty_blank (s : string) : lstrip isspace s = "" -> blank isspace s = true.
Proof.
  induction s as [|c s IH]; simpl; [done|].
  destruct (isspace c); [auto|discriminate].
Qed.

Lemma strip_empty_iff (s : string) : strip isspace s = "" <-> blank isspace s = true.
Proof.
  split; [|apply strip_blank].
  unfold strip. intros H%rstrip_empty_blank.
  pose proof (lstrip_head s) as Hh.
  destruct (lstrip isspace s) as [|c t] eqn:E.
  - by apply lstrip_empty_blank.
  - simpl in H. rewrite Hh in H. discriminate.
Qed.

Lemma constr_strip_min1_None (s : string) :
  constr_strip_min1 isspace s = None <-> blank isspace s = true.
Proof.
  rewrite <- strip_empty_iff. unfold constr_strip_min1.
  destruct (strip isspace s); simpl; split; done.
Qed.

Lemma constr_strip_min1_Some (s t : string) :
  constr_strip_min1 isspace s = Some t -> t = strip isspace s /\ t <> "".
Proof.
  unfold constr_strip_min1.
  destruct (strip isspace s); simpl; [done|].
  intros [= <-]. done.
Qed.

Lemma validate_AgentInput_blank (a : AgentJson) :
  blank_field isspace a -> validate_AgentInput isspace a = None.
Proof.
  unfold blank_field, validate_AgentInput.
  intros [H|[H|[H|H]]]; apply constr_strip_min1_None in H; rewrite H;
    repeat case_match; done.
Qed.

Lemma validate_AgentInput_Some (a : AgentJson) (a' : AgentInput) :
  validate_AgentInput isspace a = Some a' -> a' = stripped isspace a.
Proof.
  unfold validate_AgentInput, stripped.
  repeat case_match; try done.
  repeat match goal with
         | H : constr_strip_min1 _ _ = Some _ |- _ =>
             apply constr_strip_min1_Some in H as [-> _]
         end.
  by intros [= <-].
Qed.

Lemma validate_agents_blank (l : list AgentJson) :
  Exists (blank_field isspace) l -> validate_agents isspace l = None.
Proof.
  induction 1 as [a l H|a l _ IH]; simpl.
  - by rewrite validate_AgentInput_blank.
  - rewrite IH. by case_match.
Qed.

Lemma validate_agents_Some (l : list AgentJson) (l' : list AgentInput) :
  validate_agents isspace l = Some l' -> l' = stripped isspace <$> l.
Proof.
  revert l'. induction l as [|a l IH]; simpl; intros l'.
  - by intros [= <-].
  - destruct (validate_AgentInput isspace a) as [a'|] eqn:Ha; [|done].
    destruct (validate_agents isspace l) as [l''|]; [|done].
    intros [= <-]. f_equal; [by apply validate_AgentInput_Some | by apply IH].
Qed.

Lemma validate_QueryAgentsRequest_Some (b : RequestJson) (payload : QueryAgentsRequest) :
  validate_QueryAgentsRequest isspace b = Some payload ->
  payload = {| agents := stripped isspace <$> json_agents b;
               query := strip isspace (json_query b) |}.
Proof.
  unfold validate_QueryAgentsRequest.
  destruct (validate_agents isspace (json_agents b)) as [l|] eqn:Hl; [|done].
  destruct (constr_strip_min1 isspace (json_query b)) as [q|] eqn:Hq; [|done].
  intros [= <-]. apply validate_agents_Some in Hl as ->.
  by apply constr_strip_min1_Some in Hq as [-> _].
Qed.

End ValidationFacts.

(** ** Response normalisation *)

Lemma text_not_known : "text" ∉ known_keys.
Proof.
  unfold known_keys. intros H.
  repeat (apply elem_of_cons in H as [H|H]; [discriminate|]).
  by apply elem_of_nil in H.
Qed.

Lemma truthy_get (c : dict) (k : string) :
  truthy (dict_get c k) = true -> c !! k = Some (dict_get c k).
Proof. unfold dict_get. by destruct (c !! k). Qed.

(** The copying loop never raises: the subscript is guarded by the
    membership test.  Keys of [ks] present in [response] are copied, the
    rest of [result] is left as it was. *)
Lemma copy_known_spec (ks : list string) (response result : dict) :
  exists r, copy_known ks response result = Ok r /\
    forall k, r !! k =
      if decide (k ∈ ks)
      then match response !! k with Some v => Some v | None => result !! k end
      else result !! k.
Proof.
  revert result. induction ks as [|k0 ks IH]; intros result; cbn [copy_known].
  - exists result. split; [done|]. intros k.
    destruct (decide (k ∈ [])) as [H|]; [by apply elem_of_nil in H|done].
  - unfold contains, getitem.
    destruct (response !! k0) as [v|] eqn:Hk0; cbn [obind].
    + destruct (IH (<[k0 := v]> result)) as (r & -> & Hr).
      exists r. split; [done|]. intros k. rewrite Hr.
      destruct (decide (k = k0)) as [->|Hne].
      * rewrite Hk0, lookup_insert_eq.
        rewrite (decide_True (P := k0 ∈ k0 :: ks)) by (apply elem_of_cons; by left).
        by case_decide.
      * rewrite lookup_insert_ne by done.
        destruct (decide (k ∈ ks)).
        -- by rewrite decide_True by (apply elem_of_cons; by right).
        -- by rewrite decide_False by (by intros [?|?]%elem_of_cons).
    + destruct (IH result) as (r & -> & Hr).
      exists r. split; [done|]. intros k. rewrite Hr.
      destruct (decide (k = k0)) as [->|Hne].
      * rewrite Hk0.
        rewrite (decide_True (P := k0 ∈ k0 :: ks)) by (apply elem_of_cons; by left).
        by case_decide.
      * destruct (decide (k ∈ ks)).
        -- by rewrite decide_True by (apply elem_of_cons; by right).
        -- by rewrite decide_False by (by intros [?|?]%elem_of_cons).
Qed.

(** Normalisation always returns, and its result is determined entry by
    entry. *)
Lemma normalize_response_lookup (response : dict) :
  exists result, normalize_response response = Ok result /\
    forall k, result !! k =
      if decide (k = "text") then extracted_text response
      else if decide (k ∈ known_keys) then response !! k else None.
Proof.
  unfold normalize_response.
  destruct (copy_known_spec known_keys response ∅) as (r & -> & Hr). simpl.
  assert (Hcopied : forall k, r !! k =
            if decide (k ∈ known_keys) then response !! k else None).
  { intros k. rewrite Hr, lookup_empty. case_decide; [|done].
    by destruct (response !! k). }
  assert (Hplain : forall k, r !! k =
            if decide (k = "text") then None
            else if decide (k ∈ known_keys) then response !! k else None).
  { intros k. rewrite Hcopied.
    destruct (decide (k = "text")) as [->|]; [|done].
    by rewrite decide_False by apply text_not_known. }
  unfold completion_is_dict, completion_text, extracted_text, contains, getitem.
  destruct (response !! "completion") as [c|] eqn:Hc; simpl.
  2: { exists r. split; [done|]. apply Hplain. }
  destruct c as [| | | | |d|]; simpl;
    try (exists r; split; [done|]; apply Hplain).
  destruct (truthy (dict_get d "text")) eqn:Ht; simpl.
  - destruct (dict_get d "text") eqn:Hv; try discriminate;
      (eexists; split; [reflexivity|]; intros k;
       destruct (decide (k = "text")) as [->|Hne];
       [by rewrite lookup_insert_eq
       |rewrite lookup_insert_ne by done; rewrite Hplain;
        by rewrite decide_False by done]).
  - unfold py_or. destruct (truthy (dict_get d "content")) eqn:Hb.
    + destruct (dict_get d "content") eqn:Hv; try discriminate;
        (eexists; split; [reflexivity|]; intros k;
         destruct (decide (k = "text")) as [->|Hne];
         [by rewrite lookup_insert_eq
         |rewrite lookup_insert_ne by done; rewrite Hplain;
          by rewrite decide_False by done]).
    + exists r. split; [done|]. apply Hplain.
Qed.

Lemma extracted_text_origin (response : dict) (v : value) :
  extracted_text response = Some v ->
  exists c, response !! "completion" = Some (VDict c) /\
            truthy v = true /\ (c !! "text" = Some v \/ c !! "content" = Some v).
Proof.
  unfold extracted_text.
  destruct (response !! "completion") as [[| | | | |c|]|]; try done.
  destruct (truthy (dict_get c "text")) eqn:Ht.
  - intros [= <-]. exists c. split_and!; [done|done|]. left. by apply truthy_get.
  - destruct (truthy (dict_get c "content")) eqn:Hb; [|done].
    intros [= <-]. exists c. split_and!; [done|done|]. right. by apply truthy_get.
Qed.

(** C7. Normalisation is total and lossy: for every raw response it
    returns a result without raising; each of the four recognised keys
    is in the result exactly when it is in the raw response, with the same
    value; every entry of the result is either such a copy or the
    canonical ["text"] entry taken from the completion object; the empty
    response normalises to the empty mapping. *)
Theorem normalize_total_and_lossy :
  (forall response : dict,
     exists result, normalize_response response = Ok result /\
       (forall k, k ∈ known_keys -> result !! k = response !! k) /\
       (forall k v, result !! k = Some v ->
          (k ∈ known_keys /\ response !! k = Some v) \/
          (k = "text" /\
           exists c, response !! "completion" = Some (VDict c) /\
                     (c !! "text" = Some v \/ c !! "content" = Some v)))) /\
  normalize_response ∅ = Ok ∅.
Proof.
  split; [|reflexivity].
  intros response.
  destruct (normalize_response_lookup response) as (result & Hn & Hl).
  exists result. split_and!; [done| |].
  - intros k Hk. rewrite Hl.
    destruct (decide (k = "text")) as [->|]; [by apply text_not_known in Hk|].
    by rewrite decide_True.
  - intros k v. rewrite Hl.
    destruct (decide (k = "text")) as [->|Hne].
    + intros (c & Hc & _ & Hv)%extracted_text_origin. right. eauto.
    + case_decide; [|done]. intros Hv. by left.
Qed.

(** C8. When the completion object of the raw response is a mapping that
    carries text under ["text"] or ["content"], normalisation returns a
    result whose ["text"] entry is that value (["text"] first, else
    ["content"]) and whose other entries are the recognised keys copied
    from the raw response; the response [{"completion": {"text": "hello"}}]
    normalises to itself plus the entry ["text": "hello"]. *)
Theorem completion_text_is_extracted :
  (forall (response c : dict),
     response !! "completion" = Some (VDict c) ->
     text_bearing c = true ->
     exists result, normalize_response response = Ok result /\
       result !! "text" = Some (py_or (dict_get c "text") (dict_get c "content")) /\
       (forall k, k <> "text" ->
          result !! k = if decide (k ∈ known_keys) then response !! k else None)) /\
  normalize_response hello_response = Ok (<["text" := VStr "hello"]> hello_response).
Proof.
  split; [|by vm_compute].
  intros response c Hc Hb.
  destruct (normalize_response_lookup response) as (result & Hn & Hl).
  exists result. split_and!; [done| |].
  - rewrite Hl. rewrite decide_True by done.
    unfold extracted_text, py_or. rewrite Hc.
    unfold text_bearing in Hb.
    destruct (truthy (dict_get c "text")); [done|].
    simpl in Hb. by rewrite Hb.
  - intros k Hk. rewrite Hl. by rewrite decide_False by done.
Qed.

(** ** The call log *)

Local Open Scope list_scope.

Lemma attempts_app (l1 l2 : list event) :
  attempts (l1 ++ l2) = attempts l1 + attempts l2.
Proof. induction l1 as [|[] l1 IH]; simpl; lia. Qed.

Lemma session_ids_app (l1 l2 : list event) :
  session_ids (l1 ++ l2) = session_ids l1 ++ session_ids l2.
Proof. induction l1 as [|[] l1 IH]; simpl; congruence. Qed.

Lemma uuid_draws_app (l1 l2 : list event) :
  uuid_draws (l1 ++ l2) = uuid_draws l1 ++ uuid_draws l2.
Proof. induction l1 as [|[] l1 IH]; simpl; congruence. Qed.

Lemma sent_queries_app (l1 l2 : list event) :
  sent_queries (l1 ++ l2) = sent_queries l1 ++ sent_queries l2.
Proof. induction l1 as [|[] l1 IH]; simpl; congruence. Qed.

Lemma call_events_batch (r a al q : string) (evs : list event) :
  call_events r a al q evs -> batch_events 1 q evs.
Proof. destruct 1; repeat split; simpl; auto. Qed.

Lemma batch_events_nil (q : string) : batch_events 0 q [].
Proof. repeat split; simpl; auto. Qed.

Lemma batch_events_app (n m : nat) (q : string) (evs1 evs2 : list event) :
  batch_events n q evs1 -> batch_events m q evs2 ->
  batch_events (n + m) q (evs1 ++ evs2).
Proof.
  intros (Ha1 & Hs1 & Hq1) (Ha2 & Hs2 & Hq2). split_and!.
  - rewrite attempts_app. lia.
  - rewrite session_ids_app, uuid_draws_app. congruence.
  - rewrite sent_queries_app. by apply Forall_app.
Qed.

(** ** One invocation *)

Section ServiceFacts.

Variable isspace : ascii -> bool.
Variable C : Collaborators.

Ltac unfold_invoke :=
  unfold _invoke_bedrock_agent, _get_bedrock_runtime_client, bind, try_except,
    raise, lift, do_import_boto3, do_boto3_client, do_uuid4, do_invoke_agent, call.

(** The calls made by one invocation are appended to the log. *)
Lemma invoke_log (r a al q : string) (w w' : world C) (o : outcome dict) :
  _invoke_bedrock_agent C r a al q w = (o, w') ->
  exists evs, w_log w' = w_log w ++ evs /\ call_events r a al q evs.
Proof.
  unfold_invoke.
  destruct (import_boto3 C (w_env w)) as [[[]|e0] e1]; cbn.
  2: { intros [= <- <-]. cbn. eexists. split; [done|]. constructor. }
  destruct (boto3_client C _ r e1) as [[c|e0] e2]; cbn.
  2: { intros [= <- <-]. cbn. eexists. split; [by rewrite <- app_assoc|].
       constructor. }
  destruct (uuid4 C e2) as [t e3]; cbn.
  destruct (invoke_agent C c a al t q e3) as [[resp|e0] e4]; cbn;
    intros [= <- <-]; cbn; eexists;
    (split; [by rewrite <- !app_assoc|]); constructor.
Qed.

(** Without [boto3] the invocation raises the [RuntimeError] of line 84,
    before any client is built. *)
Lemma invoke_without_boto3 (r a al q : string) (w : world C) (e : exn) (e' : env C) :
  import_boto3 C (w_env w) = (Raise e, e') ->
  _invoke_bedrock_agent C r a al q w =
    (Raise (RuntimeError boto3_required),
     {| w_env := e'; w_log := w_log w ++ [ImportBoto3] |}).
Proof. unfold_invoke. by intros ->. Qed.

(** An exception of [boto3.client] leaves the invocation as it is. *)
Lemma invoke_without_client (r a al q : string) (w : world C)
    (e : exn) (e1 e2 : env C) :
  import_boto3 C (w_env w) = (Ok tt, e1) ->
  boto3_client C "bedrock-agent-runtime" r e1 = (Raise e, e2) ->
  _invoke_bedrock_agent C r a al q w =
    (Raise e,
     {| w_env := e2;
        w_log := w_log w ++ [ImportBoto3; Boto3Client "bedrock-agent-runtime" r] |}).
Proof. unfold_invoke. intros ->. cbn. intros ->. cbn. by rewrite <- app_assoc. Qed.

(** So does an exception of [invoke_agent]. *)
Lemma invoke_remote_failure (r a al q t : string) (w : world C)
    (c : client C) (e : exn) (e1 e2 e3 e4 : env C) :
  import_boto3 C (w_env w) = (Ok tt, e1) ->
  boto3_client C "bedrock-agent-runtime" r e1 = (Ok c, e2) ->
  uuid4 C e2 = (t, e3) ->
  invoke_agent C c a al t q e3 = (Raise e, e4) ->
  fst (_invoke_bedrock_agent C r a al q w) = Raise e.
Proof.
  unfold_invoke. intros ->. cbn. intros ->. cbn. intros ->. cbn. by intros ->.
Qed.

(** ** The loop *)

(** The loop with its [try]/[except] is the list of invocations, each
    turned into its [AgentResponse]: an exception ends one invocation,
    never the loop. *)
Lemma for_agent_in_invocations (l : list AgentInput) (q : string)
    (acc : list AgentResponse) (w : world C) :
  for_agent_in C l q acc w =
    let (os, w') := invocations C l q w in
    (Ok (acc ++ zip_with to_AgentResponse l os), w').
Proof.
  revert acc w. induction l as [|agent l IH]; intros acc w; cbn [for_agent_in invocations].
  - unfold ret. by rewrite app_nil_r.
  - unfold bind at 1. unfold try_except. unfold bind at 1.
    destruct (_invoke_bedrock_agent C (region agent) (agent_id agent)
                (alias_id agent) q w) as [[out|e] w1]; unfold ret; rewrite IH;
      destruct (invocations C l q w1) as [os w2]; cbn;
      by rewrite <- app_assoc.
Qed.

Lemma invocations_length (l : list AgentInput) (q : string) (w : world C) :
  length (fst (invocations C l q w)) = length l.
Proof.
  revert w. induction l as [|agent l IH]; intros w; cbn [invocations]; [done|].
  destruct (_invoke_bedrock_agent C _ _ _ q w) as [o w1].
  specialize (IH w1). destruct (invocations C l q w1) as [os w2].
  cbn in *. by rewrite IH.
Qed.

Lemma invocations_log (l : list AgentInput) (q : string) (w w' : world C)
    (os : list (outcome dict)) :
  invocations C l q w = (os, w') ->
  exists evs, w_log w' = w_log w ++ evs /\ batch_events (length l) q evs.
Proof.
  revert w os. induction l as [|agent l IH]; intros w os; cbn [invocations].
  - intros [= <- <-]. exists []. split; [by rewrite app_nil_r|].
    apply batch_events_nil.
  - destruct (_invoke_bedrock_agent C _ _ _ q w) as [o w1] eqn:H1.
    destruct (invocations C l q w1) as [os' w2] eqn:H2.
    intros [= <- <-].
    apply invoke_log in H1 as (evs1 & Hl1 & Hc1).
    apply IH in H2 as (evs2 & Hl2 & Hb2).
    exists (evs1 ++ evs2). split.
    + by rewrite Hl2, Hl1, app_assoc.
    + apply (batch_events_app 1); [by eapply call_events_batch|done].
Qed.

Lemma descriptor_of_to_AgentResponse (agent : AgentInput) (o : outcome dict) :
  descriptor_of (to_AgentResponse agent o) = agent.
Proof. by destruct agent, o. Qed.

Lemma exclusive_to_AgentResponse (agent : AgentInput) (o : outcome dict) :
  exclusive (to_AgentResponse agent o).
Proof. destruct o; split; cbn; intros; try done; split; eauto. Qed.

Lemma map_descriptor_of_zip (l : list AgentInput) (os : list (outcome dict)) :
  length os = length l ->
  descriptor_of <$> zip_with to_AgentResponse l os = l.
Proof.
  revert os. induction l as [|agent l IH]; intros [|o os]; cbn; try done.
  intros [= H]. by rewrite descriptor_of_to_AgentResponse, IH.
Qed.

(** ** The handler *)

Lemma query_agents_run (payload : QueryAgentsRequest) (w : world C) :
  agents payload <> [] ->
  query_agents C payload w =
    let (os, w') := invocations C (agents payload) (query payload) w in
    (Ok {| resp_query := query payload;
           results := zip_with to_AgentResponse (agents payload) os |}, w').
Proof.
  intros Hne. unfold query_agents.
  destruct (agents payload) as [|agent l] eqn:E; [done|].
  unfold bind. rewrite for_agent_in_invocations.
  by destruct (invocations C (agent :: l) (query payload) w) as [os w'].
Qed.

Lemma query_agents_empty (payload : QueryAgentsRequest) (w : world C) :
  agents payload = [] ->
  query_agents C payload w = (Raise (HTTPException 400 no_agents), w).
Proof. unfold query_agents. by intros ->. Qed.

(** ** The route *)

Lemma response_serialisable_zip (q : string) (l : list AgentInput)
    (os : list (outcome dict)) :
  length os = length l ->
  response_serialisable
    {| resp_query := q; results := zip_with to_AgentResponse l os |} =
  forallb outcome_serialisable os.
Proof.
  unfold response_serialisable. cbn [results].
  revert os. induction l as [|agent l IH]; intros [|o os]; cbn; try done.
  intros [= H]. rewrite IH by done. by destruct o.
Qed.

(** The route on a validated body with agents: the handler returns, and
    the status is decided by the encoding of what it returned. *)
Lemma post_query_agents_run (b : RequestJson) (payload : QueryAgentsRequest)
    (w : world C) :
  validate_QueryAgentsRequest isspace b = Some payload ->
  agents payload <> [] ->
  post_query_agents isspace C b w =
    let (os, w') := invocations C (agents payload) (query payload) w in
    (if forallb outcome_serialisable os
     then {| status := 200;
             body := JsonResults
               {| resp_query := query payload;
                  results := zip_with to_AgentResponse (agents payload) os |} |}
     else {| status := 500; body := InternalServerError |}, w').
Proof.
  intros Hv Hne. unfold post_query_agents. rewrite Hv, query_agents_run by done.
  pose proof (invocations_length (agents payload) (query payload) w) as Hlen.
  destruct (invocations C (agents payload) (query payload) w) as [os w'].
  cbn [fst] in Hlen. rewrite response_serialisable_zip by done.
  by destruct (forallb outcome_serialisable os).
Qed.

(** The route on a body without agents: nothing is called. *)
Lemma post_query_agents_empty (b : RequestJson) (w : world C) :
  json_agents b = [] ->
  post_query_agents isspace C b w =
    (if blank isspace (json_query b)
     then {| status := 422; body := JsonValidationErrors |}
     else {| status := 400; body := JsonDetail no_agents |}, w).
Proof.
  intros He. unfold post_query_agents.
  destruct (validate_QueryAgentsRequest isspace b) as [payload|] eqn:Hv.
  - pose proof (validate_QueryAgentsRequest_Some isspace b payload Hv) as Hp.
    rewrite query_agents_empty by (by rewrite Hp, He).
    destruct (blank isspace (json_query b)) eqn:Hb; [|done].
    unfold validate_QueryAgentsRequest in Hv.
    apply constr_strip_min1_None in Hb. rewrite Hb in Hv. by case_match.
  - destruct (blank isspace (json_query b)) eqn:Hb; [done|].
    unfold validate_QueryAgentsRequest in Hv. rewrite He in Hv. cbn in Hv.
    destruct (constr_strip_min1 isspace (json_query b)) eqn:Hq; [done|].
    apply constr_strip_min1_None in Hq. congruence.
Qed.

Lemma post_query_agents_log (b : RequestJson) (w : world C) :
  exists evs,
    w_log (snd (post_query_agents isspace C b w)) = w_log w ++ evs /\
    session_ids evs = uuid_draws evs /\
    Forall (eq (strip isspace (json_query b))) (sent_queries evs).
Proof.
  destruct (validate_QueryAgentsRequest isspace b) as [payload|] eqn:Hv.
  2: { unfold post_query_agents. rewrite Hv. exists []. cbn. by rewrite app_nil_r. }
  pose proof (validate_QueryAgentsRequest_Some isspace b payload Hv) as Hp.
  destruct (agents payload) as [|agent l] eqn:Hl.
  - unfold post_query_agents. rewrite Hv, query_agents_empty by done.
    exists []. cbn. by rewrite app_nil_r.
  - rewrite (post_query_agents_run b payload w Hv) by (by rewrite Hl). rewrite Hl.
    destruct (invocations C (agent :: l) (query payload) w) as [os w'] eqn:Hi.
    apply invocations_log in Hi as (evs & Hlog & _ & Hs & Hq).
    exists evs. cbn [snd]. split_and!; [done|done|]. by rewrite Hp in Hq.
Qed.

Lemma serve_log (reqs : list RequestJson) (w : world C) :
  session_ids (w_log w) = uuid_draws (w_log w) ->
  session_ids (w_log (snd (serve isspace C reqs w))) =
  uuid_draws (w_log (snd (serve isspace C reqs w))).
Proof.
  revert w. induction reqs as [|b reqs IH]; intros w Hw; cbn [serve]; [done|].
  destruct (post_query_agents_log b w) as (evs & Hlog & Hs & _).
  destruct (post_query_agents isspace C b w) as [r w1]. cbn in Hlog.
  specialize (IH w1). destruct (serve isspace C reqs w1) as [rs w2]. cbn in *.
  apply IH. rewrite Hlog, session_ids_app, uuid_draws_app. congruence.
Qed.

(** ** The claims about the fan-out *)

(** C1, as the code has it.  Failure isolation.  For a request that
    passes validation and names at least one agent, every agent of the
    list is invoked, in order, whatever the outcome of the others, and the
    handler returns its response; an invocation that raised [e] is
    recorded at its own position with [success = false], no output and
    [str e] as its error.  The route answers 200 with that response when
    every output of a successful invocation can be encoded, and 500
    otherwise: a failed invocation never stands in the way of the 200.  A
    missing [boto3] and a failure of [boto3.client] are such exceptions of
    the invocation. *)
Theorem failure_isolation :
  (forall (b : RequestJson) (payload : QueryAgentsRequest) (w : world C),
     validate_QueryAgentsRequest isspace b = Some payload ->
     agents payload <> [] ->
     exists os w',
       invocations C (agents payload) (query payload) w = (os, w') /\
       length os = length (agents payload) /\
       attempts (w_log w') = attempts (w_log w) + length (agents payload) /\
       let R := {| resp_query := query payload;
                   results := zip_with to_AgentResponse (agents payload) os |} in
       query_agents C payload w = (Ok R, w') /\
       post_query_agents isspace C b w =
         (if forallb outcome_serialisable os
          then {| status := 200; body := JsonResults R |}
          else {| status := 500; body := InternalServerError |}, w') /\
       forall i agent e,
         agents payload !! i = Some agent -> os !! i = Some (Raise e) ->
         outcome_serialisable (Raise e) = true /\
         results R !! i =
           Some {| r_role := role agent; r_agent_id := agent_id agent;
                   r_alias_id := alias_id agent; r_region := region agent;
                   success := false; output := None; error := Some (str e) |}) /\
  (forall (r a al q : string) (w : world C) (e : exn) (e' : env C),
     import_boto3 C (w_env w) = (Raise e, e') ->
     fst (_invoke_bedrock_agent C r a al q w) = Raise (RuntimeError boto3_required)) /\
  (forall (r a al q : string) (w : world C) (e : exn) (e1 e2 : env C),
     import_boto3 C (w_env w) = (Ok tt, e1) ->
     boto3_client C "bedrock-agent-runtime" r e1 = (Raise e, e2) ->
     fst (_invoke_bedrock_agent C r a al q w) = Raise e).
Proof.
  split_and!.
  - intros b payload w Hv Hne.
    pose proof (post_query_agents_run b payload w Hv Hne) as Hpost.
    destruct (invocations C (agents payload) (query payload) w) as [os w'] eqn:Hi.
    exists os, w'.
    pose proof (invocations_length (agents payload) (query payload) w) as Hlen.
    rewrite Hi in Hlen. cbn in Hlen.
    pose proof (query_agents_run payload w Hne) as Hq. rewrite Hi in Hq.
    apply invocations_log in Hi as (evs & Hlog & Ha & _).
    split; [done|]. split; [done|].
    split; [rewrite Hlog, attempts_app; lia|].
    cbv zeta. split; [done|]. split; [done|].
    intros i agent e Hagent Ho. split; [done|]. cbn.
    rewrite lookup_zip_with, Hagent. cbn. by rewrite Ho.
  - intros r a al q w e e' Hi. by rewrite (invoke_without_boto3 r a al q w e e').
  - intros r a al q w e e1 e2 Hi Hc.
    by rewrite (invoke_without_client r a al q w e e1 e2).
Qed.

(** C2. Order and length preservation.  For a request with at least one
    agent the handler returns a response with exactly one result per
    agent, and the result at position [i] echoes the role, agent id,
    alias id and region of the agent at position [i]. *)
Theorem results_mirror_agents (payload : QueryAgentsRequest) (w : world C) :
  agents payload <> [] ->
  exists R w',
    query_agents C payload w = (Ok R, w') /\
    length (results R) = length (agents payload) /\
    descriptor_of <$> results R = agents payload /\
    forall i agent,
      agents payload !! i = Some agent ->
      exists r, results R !! i = Some r /\
        r_role r = role agent /\ r_agent_id r = agent_id agent /\
        r_alias_id r = alias_id agent /\ r_region r = region agent.
Proof.
  intros Hne. rewrite query_agents_run by done.
  pose proof (invocations_length (agents payload) (query payload) w) as Hlen.
  destruct (invocations C (agents payload) (query payload) w) as [os w'].
  cbn in Hlen. eexists _, w'. split; [reflexivity|]. cbn [results].
  assert (Hmap : descriptor_of <$> zip_with to_AgentResponse (agents payload) os
                 = agents payload) by by apply map_descriptor_of_zip.
  split_and!; [|done|].
  - rewrite length_zip_with. lia.
  - intros i agent Hi. rewrite <- Hmap, list_lookup_fmap in Hi.
    destruct (zip_with to_AgentResponse (agents payload) os !! i) as [r|];
      [|done].
    exists r. split; [done|]. cbn in Hi. injection Hi as <-. done.
Qed.

(** C3. Every result produced by the handler has its fields gated by
    [success]: a successful one has an output and no error, a failed one
    an error and no output. *)
Theorem outcome_fields_exclusive (payload : QueryAgentsRequest) (w : world C) :
  agents payload <> [] ->
  exists R w',
    query_agents C payload w = (Ok R, w') /\ Forall exclusive (results R).
Proof.
  intros Hne. rewrite query_agents_run by done.
  destruct (invocations C (agents payload) (query payload) w) as [os w'].
  eexists _, w'. split; [reflexivity|]. cbn [results].
  generalize (agents payload). clear. intros l. revert os.
  induction l as [|agent l IH]; intros [|o os]; cbn; try constructor.
  - apply exclusive_to_AgentResponse.
  - apply IH.
Qed.

(** C4, as the code has it.  A request without agents is refused and the
    world is left as it was, so nothing was called and no result was
    built.  The handler refuses it with the [HTTPException] of status 400
    and the route answers 400 with the detail alone, unless the query of
    the body is blank: validation comes first, and the route then answers
    with the validation error of status 422. *)
Theorem empty_agents_rejected (b : RequestJson) (w : world C) :
  json_agents b = [] ->
  post_query_agents isspace C b w =
    (if blank isspace (json_query b)
     then {| status := 422; body := JsonValidationErrors |}
     else {| status := 400; body := JsonDetail no_agents |}, w) /\
  forall payload, validate_QueryAgentsRequest isspace b = Some payload ->
    agents payload = [] /\
    query_agents C payload w = (Raise (HTTPException 400 no_agents), w).
Proof.
  intros He. split; [by apply post_query_agents_empty|].
  intros payload Hv.
  pose proof (validate_QueryAgentsRequest_Some isspace b payload Hv) as Hp.
  assert (Hl : agents payload = []) by (by rewrite Hp, He).
  split; [done|]. by apply query_agents_empty.
Qed.

(** C5, as the code has it.  A body in which the query or a field of a
    descriptor is empty or all whitespace fails the validation of the
    request model: the route answers with the validation error of status
    422, the handler is not entered and the world is left as it was. *)
Theorem blank_fields_rejected (b : RequestJson) (w : world C) :
  blank isspace (json_query b) = true \/ Exists (blank_field isspace) (json_agents b) ->
  validate_QueryAgentsRequest isspace b = None /\
  post_query_agents isspace C b w =
    ({| status := 422; body := JsonValidationErrors |}, w).
Proof.
  intros H.
  assert (Hv : validate_QueryAgentsRequest isspace b = None).
  { unfold validate_QueryAgentsRequest. destruct H as [H|H].
    - apply constr_strip_min1_None in H. rewrite H. by case_match.
    - by rewrite validate_agents_blank. }
  split; [done|]. unfold post_query_agents. by rewrite Hv.
Qed.

(** C6, as the code has it.  When the invocation of the agent at
    position [i] raises [e], the result at position [i] echoes the agent
    and has [success = false], no output, and [str e] as its error: a
    string that is empty exactly when the exception has an empty message.
    For a missing [boto3] it is the fixed message of line 84. *)
Theorem failed_call_is_reported
    (payload : QueryAgentsRequest) (w w' : world C) (os : list (outcome dict))
    (i : nat) (agent : AgentInput) (e : exn) :
  invocations C (agents payload) (query payload) w = (os, w') ->
  agents payload !! i = Some agent ->
  os !! i = Some (Raise e) ->
  exists R,
    query_agents C payload w = (Ok R, w') /\
    results R !! i =
      Some {| r_role := role agent; r_agent_id := agent_id agent;
              r_alias_id := alias_id agent; r_region := region agent;
              success := false; output := None; error := Some (str e) |} /\
    (e = RuntimeError boto3_required -> str e <> "").
Proof.
  intros Hi Hagent Ho.
  assert (Hne : agents payload <> []) by (intros E; by rewrite E in Hagent).
  rewrite query_agents_run, Hi by done.
  eexists. split; [reflexivity|]. cbn [results]. split.
  - rewrite lookup_zip_with, Hagent. cbn. by rewrite Ho.
  - by intros ->.
Qed.

(** C9. Over any sequence of requests served by a process, the session
    ids handed to [invoke_agent] are, call for call, the tokens drawn from
    [uuid.uuid4()]: each remote call uses the token drawn for it and no
    other.  Hence, as long as the generator does not repeat itself, no
    session id is used twice, within a request or across requests. *)
Theorem session_tokens_fresh (reqs : list RequestJson) (e : env C) :
  NoDup (uuid_draws (served_log isspace C reqs e)) ->
  session_ids (served_log isspace C reqs e) = uuid_draws (served_log isspace C reqs e) /\
  NoDup (session_ids (served_log isspace C reqs e)).
Proof.
  intros Hnd.
  assert (Heq : session_ids (served_log isspace C reqs e) =
                uuid_draws (served_log isspace C reqs e))
    by by apply serve_log.
  split; [done|]. by rewrite Heq.
Qed.

(** C10. An accepted request is processed in its trimmed form: the
    payload handed to the handler holds the stripped query and the
    stripped descriptor fields, every [invoke_agent] call is sent the
    stripped query, and the response the handler returns, which is the
    one the route answers with, echoes the stripped query and the
    stripped descriptors. *)
Theorem whitespace_is_trimmed
    (b : RequestJson) (payload : QueryAgentsRequest) (w : world C) :
  validate_QueryAgentsRequest isspace b = Some payload ->
  json_agents b <> [] ->
  payload = {| agents := stripped isspace <$> json_agents b;
               query := strip isspace (json_query b) |} /\
  exists R w' evs,
    query_agents C payload w = (Ok R, w') /\
    post_query_agents isspace C b w =
      (if response_serialisable R
       then {| status := 200; body := JsonResults R |}
       else {| status := 500; body := InternalServerError |}, w') /\
    resp_query R = strip isspace (json_query b) /\
    descriptor_of <$> results R = stripped isspace <$> json_agents b /\
    w_log w' = w_log w ++ evs /\
    Forall (eq (strip isspace (json_query b))) (sent_queries evs).
Proof.
  intros Hv Hne.
  pose proof (validate_QueryAgentsRequest_Some isspace b payload Hv) as Hp.
  split; [done|].
  assert (Hne' : agents payload <> []).
  { rewrite Hp. cbn. by destruct (json_agents b). }
  pose proof (query_agents_run payload w Hne') as Hq.
  pose proof (post_query_agents_run b payload w Hv Hne') as Hpost.
  pose proof (invocations_length (agents payload) (query payload) w) as Hlen.
  destruct (post_query_agents_log b w) as (evs & Hlog & _ & Hsent).
  destruct (invocations C (agents payload) (query payload) w) as [os w'].
  cbn [fst] in Hlen.
  rewrite Hpost in Hlog. cbn [snd] in Hlog.
  eexists _, w', evs. split; [exact Hq|].
  rewrite response_serialisable_zip by done. split; [exact Hpost|].
  cbn [resp_query results].
  split_and!; [by rewrite Hp| |done|done].
  rewrite map_descriptor_of_zip by done. by rewrite Hp.
Qed.

End ServiceFacts.

(** ** The theorems at work on the sample instances *)

Lemma failure_isolation_witness :
  validate_QueryAgentsRequest ascii_isspace sample_json = Some sample_payload /\
  exists R w',
    post_query_agents ascii_isspace stub_aws sample_json (fresh_world stub_aws 0%nat) =
      ({| status := 200; body := JsonResults R |}, w') /\
    results R !! 1%nat =
      Some {| r_role := "Cardiologist"; r_agent_id := "DOWN";
              r_alias_id := "ALIAS2"; r_region := "eu-west-1";
              success := false; output := None; error := Some (str down_error) |}.
Proof.
  split; [reflexivity|].
  destruct (proj1 (failure_isolation ascii_isspace stub_aws)
              sample_json sample_payload (fresh_world stub_aws 0%nat))
    as (os & w' & Hi & _ & _ & _ & Hpost & Hfail); [reflexivity|discriminate|].
  injection Hi as <- <-.
  eexists _, _. split; [exact Hpost|].
  apply (Hfail 1%nat agent_down down_error); reflexivity.
Defined.

Lemma results_mirror_agents_witness :
  agents sample_payload <> [] /\
  exists R w',
    query_agents stub_aws sample_payload (fresh_world stub_aws 0%nat) = (Ok R, w') /\
    descriptor_of <$> results R = [agent_A; agent_down; agent_B].
Proof.
  split; [discriminate|].
  destruct (results_mirror_agents stub_aws sample_payload (fresh_world stub_aws 0%nat))
    as (R & w' & Hq & _ & Hecho & _); [discriminate|].
  exists R, w'. split; [exact Hq|exact Hecho].
Defined.

Lemma outcome_fields_exclusive_witness :
  agents sample_payload <> [] /\
  exists R w',
    query_agents stub_aws sample_payload (fresh_world stub_aws 0%nat) = (Ok R, w') /\
    Forall exclusive (results R).
Proof.
  split; [discriminate|].
  apply (outcome_fields_exclusive stub_aws sample_payload). discriminate.
Defined.

Lemma empty_agents_rejected_witness :
  json_agents empty_json = [] /\
  post_query_agents ascii_isspace stub_aws empty_json (fresh_world stub_aws 0%nat) =
    ({| status := 400; body := JsonDetail no_agents |}, fresh_world stub_aws 0%nat).
Proof.
  split; [reflexivity|].
  exact (proj1 (empty_agents_rejected ascii_isspace stub_aws empty_json
                  (fresh_world stub_aws 0%nat) eq_refl)).
Defined.

Lemma blank_fields_rejected_witness :
  blank ascii_isspace (json_query blank_query_json) = true /\
  post_query_agents ascii_isspace stub_aws blank_query_json (fresh_world stub_aws 0%nat) =
    ({| status := 422; body := JsonValidationErrors |}, fresh_world stub_aws 0%nat).
Proof.
  split; [reflexivity|].
  apply (blank_fields_rejected ascii_isspace stub_aws blank_query_json).
  left. reflexivity.
Defined.

Lemma failed_call_is_reported_witness :
  exists R,
    fst (query_agents stub_aws sample_payload (fresh_world stub_aws 0%nat)) = Ok R /\
    results R !! 1%nat =
      Some {| r_role := "Cardiologist"; r_agent_id := "DOWN";
              r_alias_id := "ALIAS2"; r_region := "eu-west-1";
              success := false; output := None; error := Some (str down_error) |}.
Proof.
  pose (p := invocations stub_aws (agents sample_payload) (query sample_payload)
               (fresh_world stub_aws 0%nat)).
  destruct (failed_call_is_reported stub_aws sample_payload
              (fresh_world stub_aws 0%nat) (snd p) (fst p) 1 agent_down down_error)
    as (R & Hq & Hr & _); [reflexivity|reflexivity|reflexivity|].
  exists R. split; [by rewrite Hq|exact Hr].
Defined.

Lemma session_tokens_fresh_witness :
  NoDup (session_ids (served_log ascii_isspace stub_aws [sample_json; sample_json] 0%nat)).
Proof.
  apply (session_tokens_fresh ascii_isspace stub_aws [sample_json; sample_json] 0%nat).
  apply (bool_decide_unpack _). vm_compute. exact I.
Defined.

Lemma whitespace_is_trimmed_witness :
  exists R w' evs,
    post_query_agents ascii_isspace stub_aws sample_json (fresh_world stub_aws 0%nat) =
      ({| status := 200; body := JsonResults R |}, w') /\
    resp_query R = "what is reflux?" /\
    descriptor_of <$> results R = [agent_A; agent_down; agent_B] /\
    w_log w' = evs /\
    Forall (eq "what is reflux?") (sent_queries evs).
Proof.
  destruct (whitespace_is_trimmed ascii_isspace stub_aws sample_json sample_payload
              (fresh_world stub_aws 0%nat))
    as (_ & R & w' & evs & Hq & Hpost & H); [reflexivity|discriminate|].
  assert (HR : response_serialisable R = true).
  { assert (E : Ok R = fst (query_agents stub_aws sample_payload
                             (fresh_world stub_aws 0%nat))) by (by rewrite Hq).
    change (match Ok R with
            | Ok r => response_serialisable r
            | Raise _ => false
            end = true).
    rewrite E. vm_compute. reflexivity. }
  rewrite HR in Hpost.
  exists R, w', evs. split; [exact Hpost|exact H].
Defined.

Lemma completion_text_is_extracted_witness :
  exists result,
    normalize_response hello_response = Ok result /\
    result !! "text" = Some (VStr "hello").
Proof.
  destruct (proj1 completion_text_is_extracted hello_response
              (<["text" := VStr "hello"]> ∅))
    as (result & Hn & Ht & _); [reflexivity|reflexivity|].
  exists result. split; [exact Hn|exact Ht].
Defined.

(** The mixed batch: the second of three agents fails, its neighbours
    succeed. *)
Example mixed_batch :
  success <$> results_of
    (fst (post_query_agents ascii_isspace stub_aws sample_json (fresh_world stub_aws 0%nat)))
  = [true; false; true].
Proof. reflexivity. Qed.

(** Without [boto3] every item fails with the message of line 84 and the
    route still answers 200. *)
Example without_boto3_every_item_fails :
  fst (post_query_agents ascii_isspace no_boto3 sample_json (fresh_world no_boto3 0%nat)) =
    {| status := 200;
       body := JsonResults
         {| resp_query := "what is reflux?";
            results := [AgentResponse_failed agent_A (RuntimeError boto3_required);
                        AgentResponse_failed agent_down (RuntimeError boto3_required);
                        AgentResponse_failed agent_B (RuntimeError boto3_required)] |} |}.
Proof. reflexivity. Qed.

Example strip_inner_blanks_kept : strip ascii_isspace "  a b  " = "a b".
Proof. reflexivity. Qed.

(** ** Where the code departs from the text *)

(** C1 as stated fails: the request passes validation, the first agent
    raises and is recorded as a failed item, the second answers with a
    stream, and the route answers 500, not 200, because the output of the
    second cannot be encoded. *)
Lemma stream_output_is_a_500 :
  validate_QueryAgentsRequest ascii_isspace down_then_B_json = Some down_then_B /\
  fst (invocations streaming_aws (agents down_then_B) (query down_then_B)
         (fresh_world streaming_aws 0%nat)) =
    [Raise down_error; Ok (stream_answer "uuid-1")] /\
  status (fst (post_query_agents ascii_isspace streaming_aws down_then_B_json
                 (fresh_world streaming_aws 0%nat))) = 500%Z /\
  status (fst (post_query_agents ascii_isspace streaming_aws down_then_B_json
                 (fresh_world streaming_aws 0%nat))) <> 200%Z.
Proof.
  split_and!.
  - vm_compute. reflexivity.
  - vm_compute. reflexivity.
  - vm_compute. reflexivity.
  - vm_compute. discriminate.
Qed.

(** C4 as stated fails: a body without agents whose query is made of
    spaces is answered with the validation error of status 422, not with
    a 400. *)
Lemma empty_agents_blank_query_is_a_422 :
  json_agents empty_blank_json = [] /\
  status (fst (post_query_agents ascii_isspace stub_aws empty_blank_json
                 (fresh_world stub_aws 0%nat))) = 422%Z /\
  status (fst (post_query_agents ascii_isspace stub_aws empty_blank_json
                 (fresh_world stub_aws 0%nat))) <> 400%Z.
Proof.
  split_and!.
  - reflexivity.
  - vm_compute. reflexivity.
  - vm_compute. discriminate.
Qed.

(** C5 as stated fails: a body whose query is made of spaces is answered
    with the validation error of status 422, not with a 400. *)
Lemma blank_query_is_not_a_400 :
  blank ascii_isspace (json_query blank_query_json) = true /\
  status (fst (post_query_agents ascii_isspace stub_aws blank_query_json
                 (fresh_world stub_aws 0%nat))) = 422%Z /\
  status (fst (post_query_agents ascii_isspace stub_aws blank_query_json
                 (fresh_world stub_aws 0%nat))) <> 400%Z.
Proof. split_and!; [reflexivity|reflexivity|discriminate]. Qed.

(** C6 as stated fails: the remote call of the agent ["MUTE"] raises an
    exception without a message, and the error reported for it is the
    empty string. *)
Lemma failed_call_with_empty_error :
  fst (invocations stub_aws (agents mute_payload) (query mute_payload)
         (fresh_world stub_aws 0%nat)) = [Raise mute_error] /\
  fst (query_agents stub_aws mute_payload (fresh_world stub_aws 0%nat)) =
    Ok {| resp_query := "what is reflux?";
          results :=
            [{| r_role := "Neurologist"; r_agent_id := "MUTE";
                r_alias_id := "ALIAS3"; r_region := "us-west-2";
                success := false; output := None; error := Some "" |}] |}.
Proof. split; reflexivity. Qed.

(** * Further properties of the code *)

(** ** [strip] and the field constraint *)

Section StripFacts.

Variable isspace : ascii -> bool.

Lemma lstrip_decompose (s : string) :
  exists pre, s = (pre ++ lstrip isspace s)%string /\ blank isspace pre = true.
Proof.
  induction s as [|c s (pre & Hs & Hpre)]; cbn.
  - by exists "".
  - destruct (isspace c) eqn:Hc.
    + exists (String c pre). split; [exact (f_equal (String c) Hs)|].
      cbn. by rewrite Hc.
    + by exists "".
Qed.

Lemma rstrip_decompose (s : string) :
  exists post, s = (rstrip isspace s ++ post)%string /\ blank isspace post = true.
Proof.
  induction s as [|c s (post & Hs & Hpost)]; cbn.
  - by exists "".
  - destruct (rstrip isspace s) as [|c' r] eqn:Hr.
    + change (s = post) in Hs. subst post. destruct (isspace c) eqn:Hc.
      * exists (String c s). split; [reflexivity|]. cbn. by rewrite Hc.
      * exists s. split; [reflexivity|done].
    + exists post. split; [exact (f_equal (String c) Hs)|done].
Qed.

Lemma rstrip_idempotent (s : string) :
  rstrip isspace (rstrip isspace s) = rstrip isspace s.
Proof.
  induction s as [|c s IH]; [done|]. cbn [rstrip].
  destruct (rstrip isspace s) as [|c' r] eqn:Hr.
  - destruct (isspace c) eqn:Hc; cbn; [done|]. by rewrite Hc.
  - change (rstrip isspace (String c (String c' r))) with
      (match rstrip isspace (String c' r) with
       | EmptyString => if isspace c then EmptyString else String c EmptyString
       | String c0 r0 => String c (String c0 r0)
       end).
    by rewrite IH.
Qed.

Lemma rstrip_keeps_head (c : ascii) (s : string) :
  isspace c = false -> exists r, rstrip isspace (String c s) = String c r.
Proof.
  intros Hc. cbn. destruct (rstrip isspace s); [|by eexists].
  rewrite Hc. by eexists.
Qed.

Lemma lstrip_strip (s : string) :
  lstrip isspace (strip isspace s) = strip isspace s.
Proof.
  unfold strip. pose proof (lstrip_head isspace s) as Hh.
  destruct (lstrip isspace s) as [|c t]; [done|].
  destruct (rstrip_keeps_head c t Hh) as (r & ->). cbn. by rewrite Hh.
Qed.

(** X1. [strip] removes whitespace from the two ends and nothing else:
    the string is a run of whitespace, then its stripped form, then a run
    of whitespace. *)
Theorem strip_decomposes (s : string) :
  exists pre post,
    s = (pre ++ strip isspace s ++ post)%string /\
    blank isspace pre = true /\ blank isspace post = true.
Proof.
  destruct (lstrip_decompose s) as (pre & Hs & Hpre).
  destruct (rstrip_decompose (lstrip isspace s)) as (post & Ht & Hpost).
  exists pre, post. split_and!; [|done|done].
  unfold strip. by rewrite <- Ht.
Qed.

(** Stripping twice is stripping once. *)
Lemma strip_idempotent (s : string) :
  strip isspace (strip isspace s) = strip isspace s.
Proof.
  unfold strip at 1. rewrite lstrip_strip. unfold strip.
  apply rstrip_idempotent.
Qed.

Lemma constr_strip_min1_fixed (s t : string) :
  constr_strip_min1 isspace s = Some t -> constr_strip_min1 isspace t = Some t.
Proof.
  intros [-> Hne]%constr_strip_min1_Some.
  unfold constr_strip_min1. rewrite strip_idempotent.
  by destruct (strip isspace s).
Qed.

Lemma constr_strip_min1_nonblank (s t : string) :
  constr_strip_min1 isspace s = Some t -> blank isspace t = false.
Proof.
  intros H. pose proof (constr_strip_min1_fixed s t H) as Hf.
  destruct (blank isspace t) eqn:Hb; [|done].
  apply constr_strip_min1_None in Hb. congruence.
Qed.

Lemma validate_AgentInput_fixed (a : AgentJson) (a' : AgentInput) :
  validate_AgentInput isspace a = Some a' ->
  validate_AgentInput isspace (json_of_AgentInput a') = Some a' /\
  nonblank_agent isspace a'.
Proof.
  unfold validate_AgentInput.
  destruct (constr_strip_min1 isspace (json_role a)) as [r|] eqn:H1; [|done].
  destruct (constr_strip_min1 isspace (json_agent_id a)) as [i|] eqn:H2; [|done].
  destruct (constr_strip_min1 isspace (json_alias_id a)) as [al|] eqn:H3; [|done].
  destruct (constr_strip_min1 isspace (json_region a)) as [rg|] eqn:H4; [|done].
  intros [= <-]. cbn. split.
  - by rewrite (constr_strip_min1_fixed _ _ H1), (constr_strip_min1_fixed _ _ H2),
      (constr_strip_min1_fixed _ _ H3), (constr_strip_min1_fixed _ _ H4).
  - unfold nonblank_agent. cbn. split_and!; by eapply constr_strip_min1_nonblank.
Qed.

Lemma validate_agents_fixed (l : list AgentJson) (l' : list AgentInput) :
  validate_agents isspace l = Some l' ->
  validate_agents isspace (json_of_AgentInput <$> l') = Some l' /\
  Forall (nonblank_agent isspace) l'.
Proof.
  revert l'. induction l as [|a l IH]; cbn; intros l'.
  - by intros [= <-].
  - destruct (validate_AgentInput isspace a) as [a'|] eqn:Ha; [|done].
    destruct (validate_agents isspace l) as [l''|] eqn:Hl; [|done].
    intros [= <-]. destruct (IH l'' eq_refl) as [IH1 IH2].
    apply validate_AgentInput_fixed in Ha as [Ha1 Ha2]. cbn.
    rewrite Ha1. rewrite IH1. split; [done|by constructor].
Qed.

(** X2. A validated request written back as a body validates to itself:
    what the service echoes can be submitted again unchanged. *)
Theorem validation_round_trip (b : RequestJson) (payload : QueryAgentsRequest) :
  validate_QueryAgentsRequest isspace b = Some payload ->
  validate_QueryAgentsRequest isspace (json_of_request payload) = Some payload.
Proof.
  unfold validate_QueryAgentsRequest.
  destruct (validate_agents isspace (json_agents b)) as [l|] eqn:Hl; [|done].
  destruct (constr_strip_min1 isspace (json_query b)) as [q|] eqn:Hq; [|done].
  intros [= <-]. cbn.
  apply validate_agents_fixed in Hl as [-> _].
  by rewrite (constr_strip_min1_fixed _ _ Hq).
Qed.

Lemma validate_AgentInput_None (a : AgentJson) :
  validate_AgentInput isspace a = None -> blank_field isspace a.
Proof.
  unfold validate_AgentInput, blank_field.
  destruct (constr_strip_min1 isspace (json_role a)) eqn:H1;
    [|apply constr_strip_min1_None in H1; auto].
  destruct (constr_strip_min1 isspace (json_agent_id a)) eqn:H2;
    [|apply constr_strip_min1_None in H2; auto].
  destruct (constr_strip_min1 isspace (json_alias_id a)) eqn:H3;
    [|apply constr_strip_min1_None in H3; auto].
  destruct (constr_strip_min1 isspace (json_region a)) eqn:H4;
    [done|apply constr_strip_min1_None in H4; auto].
Qed.

Lemma validate_agents_None (l : list AgentJson) :
  validate_agents isspace l = None -> Exists (blank_field isspace) l.
Proof.
  induction l as [|a l IH]; cbn; [done|].
  destruct (validate_AgentInput isspace a) eqn:Ha.
  - destruct (validate_agents isspace l); [done|]. intros _. right. by apply IH.
  - intros _. left. by apply validate_AgentInput_None.
Qed.

(** X3. Among the bodies of the shape the request model describes (a
    list of descriptors with four string fields, and a string query),
    validation rejects exactly those whose query or one of whose
    descriptor fields is empty or all whitespace; an empty list of agents
    is not a validation error. *)
Theorem validation_rejects_only_blank (b : RequestJson) :
  validate_QueryAgentsRequest isspace b = None <->
  blank isspace (json_query b) = true \/
  Exists (blank_field isspace) (json_agents b).
Proof.
  split.
  - unfold validate_QueryAgentsRequest.
    destruct (validate_agents isspace (json_agents b)) eqn:Hl.
    + destruct (constr_strip_min1 isspace (json_query b)) eqn:Hq; [done|].
      intros _. left. by apply constr_strip_min1_None.
    + intros _. right. by apply validate_agents_None.
  - unfold validate_QueryAgentsRequest. intros [H|H].
    + apply constr_strip_min1_None in H. rewrite H. by case_match.
    + by rewrite validate_agents_blank.
Qed.

(** X4. The handler never sees a blank value: in a validated request the
    query and the four fields of every descriptor hold at least one
    character that is not whitespace. *)
Theorem validated_fields_not_blank (b : RequestJson) (payload : QueryAgentsRequest) :
  validate_QueryAgentsRequest isspace b = Some payload ->
  blank isspace (query payload) = false /\
  Forall (nonblank_agent isspace) (agents payload).
Proof.
  unfold validate_QueryAgentsRequest.
  destruct (validate_agents isspace (json_agents b)) as [l|] eqn:Hl; [|done].
  destruct (constr_strip_min1 isspace (json_query b)) as [q|] eqn:Hq; [|done].
  intros [= <-]. cbn. split.
  - by eapply constr_strip_min1_nonblank.
  - by apply validate_agents_fixed in Hl as [_ ?].
Qed.

End StripFacts.

(** ** More on normalisation *)

Lemma completion_known : "completion" ∈ known_keys.
Proof. unfold known_keys. repeat (apply elem_of_cons; (by left) || right). Qed.

Lemma extracted_text_ext (r1 r2 : dict) :
  r1 !! "completion" = r2 !! "completion" -> extracted_text r1 = extracted_text r2.
Proof. unfold extracted_text. by intros ->. Qed.

Lemma extracted_text_is_Some (r : dict) :
  is_Some (extracted_text r) <->
  exists c, r !! "completion" = Some (VDict c) /\ text_bearing c = true.
Proof.
  unfold extracted_text, text_bearing. split.
  - destruct (r !! "completion") as [[| | | | |c|]|]; try by intros [? [=]].
    intros Hs. exists c. split; [done|].
    destruct (truthy (dict_get c "text")); [done|].
    destruct (truthy (dict_get c "content")); [done|]. by destruct Hs.
  - intros (c & -> & Hb).
    destruct (truthy (dict_get c "text")); [by eexists|].
    cbn in Hb. rewrite Hb. by eexists.
Qed.

(** X5. Normalisation is idempotent: the normalised mapping, fed to the
    normaliser again, comes back unchanged (its ["text"] entry is rebuilt
    from the completion object that it carries). *)
Theorem normalize_idempotent (response : dict) :
  exists out, normalize_response response = Ok out /\
              normalize_response out = Ok out.
Proof.
  destruct (normalize_response_lookup response) as (out & Hn & Hl).
  destruct (normalize_response_lookup out) as (out' & Hn' & Hl').
  exists out. split; [done|]. rewrite Hn'. f_equal.
  apply map_eq. intros k. rewrite Hl', Hl.
  assert (Hc : out !! "completion" = response !! "completion").
  { rewrite Hl. rewrite decide_False by done.
    by rewrite decide_True by apply completion_known. }
  destruct (decide (k = "text")); [by apply extracted_text_ext|].
  destruct (decide (k ∈ known_keys)); done.
Qed.

(** X6. The normalised mapping depends on the four recognised keys only:
    two raw responses that agree on them normalise to the same mapping,
    whatever else they hold (a top-level ["text"] of the raw response
    included). *)
Theorem normalize_ignores_unknown_keys (r1 r2 : dict) :
  (forall k, k ∈ known_keys -> r1 !! k = r2 !! k) ->
  normalize_response r1 = normalize_response r2.
Proof.
  intros Hk.
  destruct (normalize_response_lookup r1) as (o1 & -> & H1).
  destruct (normalize_response_lookup r2) as (o2 & -> & H2).
  f_equal. apply map_eq. intros k. rewrite H1, H2.
  destruct (decide (k = "text")).
  - apply extracted_text_ext, Hk, completion_known.
  - destruct (decide (k ∈ known_keys)); [by apply Hk|done].
Qed.

(** X7. The normalised mapping has a ["text"] entry exactly when the
    completion of the raw response is a mapping with a truthy ["text"] or
    ["content"]; the entry is then truthy itself, so it is never [None]
    and never an empty string. *)
Theorem text_entry_iff_text_bearing (response : dict) :
  exists out, normalize_response response = Ok out /\
    (is_Some (out !! "text") <->
     exists c, response !! "completion" = Some (VDict c) /\ text_bearing c = true) /\
    (forall v, out !! "text" = Some v -> truthy v = true /\ v <> VNone /\ v <> VStr "").
Proof.
  destruct (normalize_response_lookup response) as (out & Hn & Hl).
  exists out. split; [done|].
  assert (Ht : out !! "text" = extracted_text response).
  { rewrite Hl. by rewrite decide_True. }
  rewrite Ht. split; [apply extracted_text_is_Some|].
  intros v (c & _ & Hv & _)%extracted_text_origin.
  split_and!; [done| |]; intros ->; discriminate.
Qed.

(** ** More on the call log *)

Lemma invoke_targets_app (l1 l2 : list event) :
  invoke_targets (l1 ++ l2) = invoke_targets l1 ++ invoke_targets l2.
Proof. induction l1 as [|[] l1 IH]; simpl; congruence. Qed.

Lemma client_requests_app (l1 l2 : list event) :
  client_requests (l1 ++ l2) = client_requests l1 ++ client_requests l2.
Proof. induction l1 as [|[] l1 IH]; simpl; congruence. Qed.

Lemma batch_trace_counts (q : string) (l : list AgentInput)
    (os : list (outcome dict)) (evs : list event) :
  batch_trace q l os evs ->
  successes (zip_with to_AgentResponse l os) <= length (session_ids evs) /\
  length (session_ids evs) <= length l.
Proof.
  induction 1 as [|agent l o os evs evs' Ht _ [IH1 IH2]]; [done|].
  rewrite session_ids_app, length_app. cbn [zip_with successes length].
  destruct Ht; cbn; [lia|lia|].
  destruct o; cbn; lia.
Qed.

Lemma batch_trace_targets (q : string) (l : list AgentInput)
    (os : list (outcome dict)) (evs : list event) :
  batch_trace q l os evs ->
  invoke_targets evs `sublist_of` (target_of q <$> l) /\
  client_requests evs `sublist_of` (client_of <$> l).
Proof.
  induction 1 as [|agent l o os evs evs' Ht _ [IH1 IH2]];
    [split; constructor|].
  rewrite invoke_targets_app, client_requests_app. cbn [fmap list_fmap].
  destruct Ht; cbn; split;
    (by apply sublist_cons) || (by apply sublist_skip).
Qed.

(** ** More on one invocation and on the loop *)

Section MoreServiceFacts.

Variable isspace : ascii -> bool.
Variable C : Collaborators.

Ltac unfold_invocation :=
  unfold _invoke_bedrock_agent, _get_bedrock_runtime_client, bind, try_except,
    raise, lift, do_import_boto3, do_boto3_client, do_uuid4, do_invoke_agent, call.

Lemma invoke_trace (agent : AgentInput) (q : string) (w w' : world C)
    (o : outcome dict) :
  _invoke_bedrock_agent C (region agent) (agent_id agent) (alias_id agent) q w
    = (o, w') ->
  exists evs, w_log w' = w_log w ++ evs /\ invocation_trace agent q o evs.
Proof.
  unfold_invocation.
  destruct (import_boto3 C (w_env w)) as [[[]|e0] e1]; cbn.
  2: { intros [= <- <-]. cbn. eexists. split; [done|]. constructor. }
  destruct (boto3_client C _ (region agent) e1) as [[c|e0] e2]; cbn.
  2: { intros [= <- <-]. cbn. eexists. split; [by rewrite <- app_assoc|].
       constructor. }
  destruct (uuid4 C e2) as [t e3]; cbn.
  destruct (invoke_agent C c _ _ t q e3) as [[resp|e0] e4]; cbn;
    intros [= <- <-]; cbn; eexists;
    (split; [by rewrite <- !app_assoc|]); constructor.
Qed.

Lemma invocations_trace (l : list AgentInput) (q : string) (w w' : world C)
    (os : list (outcome dict)) :
  invocations C l q w = (os, w') ->
  exists evs, w_log w' = w_log w ++ evs /\ batch_trace q l os evs.
Proof.
  revert w os. induction l as [|agent l IH]; intros w os; cbn [invocations].
  - intros [= <- <-]. exists []. split; [by rewrite app_nil_r|constructor].
  - destruct (_invoke_bedrock_agent C _ _ _ q w) as [o w1] eqn:H1.
    destruct (invocations C l q w1) as [os' w2] eqn:H2.
    intros [= <- <-].
    apply invoke_trace in H1 as (evs1 & Hl1 & Ht1).
    apply IH in H2 as (evs2 & Hl2 & Ht2).
    exists (evs1 ++ evs2). split; [by rewrite Hl2, Hl1, app_assoc|].
    by constructor.
Qed.

Lemma invocations_app (l1 l2 : list AgentInput) (q : string) (w : world C) :
  invocations C (l1 ++ l2) q w =
    let (os1, w1) := invocations C l1 q w in
    let (os2, w2) := invocations C l2 q w1 in
    (os1 ++ os2, w2).
Proof.
  revert w. induction l1 as [|agent l1 IH]; intros w; cbn [invocations app].
  - by destruct (invocations C l2 q w).
  - destruct (_invoke_bedrock_agent C _ _ _ q w) as [o w0]. rewrite IH.
    destruct (invocations C l1 q w0) as [os1 w1].
    by destruct (invocations C l2 q w1).
Qed.

(** X8. When the import, the client and the remote call all succeed, the
    invocation returns the normalised form of the raw response, which
    always exists, after exactly four calls: the import, [boto3.client]
    for the service ["bedrock-agent-runtime"] in the agent's region, one
    token, and [invoke_agent] with the agent id, the alias id, that token
    and the query. *)
Theorem invocation_success_path (r a al q t : string) (w : world C)
    (c : client C) (resp : dict) (e1 e2 e3 e4 : env C) :
  import_boto3 C (w_env w) = (Ok tt, e1) ->
  boto3_client C "bedrock-agent-runtime" r e1 = (Ok c, e2) ->
  uuid4 C e2 = (t, e3) ->
  invoke_agent C c a al t q e3 = (Ok resp, e4) ->
  exists out,
    normalize_response resp = Ok out /\
    _invoke_bedrock_agent C r a al q w =
      (Ok out,
       {| w_env := e4;
          w_log := w_log w ++ [ImportBoto3; Boto3Client "bedrock-agent-runtime" r;
                               Uuid4 t; InvokeAgent a al t q] |}).
Proof.
  intros Hi Hc Hu Hr.
  destruct (normalize_response_lookup resp) as (out & Hn & _).
  exists out. split; [done|].
  unfold_invocation. rewrite Hi. cbn. rewrite Hc. cbn. rewrite Hu. cbn.
  rewrite Hr. cbn. by rewrite Hn, <- !app_assoc.
Qed.

(** X9. An exception of [invoke_agent] leaves the invocation unchanged,
    not wrapped, after the same four calls; the remote call is made once
    and not repeated. *)
Theorem invocation_remote_failure (r a al q t : string) (w : world C)
    (c : client C) (e : exn) (e1 e2 e3 e4 : env C) :
  import_boto3 C (w_env w) = (Ok tt, e1) ->
  boto3_client C "bedrock-agent-runtime" r e1 = (Ok c, e2) ->
  uuid4 C e2 = (t, e3) ->
  invoke_agent C c a al t q e3 = (Raise e, e4) ->
  _invoke_bedrock_agent C r a al q w =
    (Raise e,
     {| w_env := e4;
        w_log := w_log w ++ [ImportBoto3; Boto3Client "bedrock-agent-runtime" r;
                             Uuid4 t; InvokeAgent a al t q] |}).
Proof.
  intros Hi Hc Hu Hr.
  unfold_invocation. rewrite Hi. cbn. rewrite Hc. cbn. rewrite Hu. cbn.
  rewrite Hr. cbn. by rewrite <- !app_assoc.
Qed.

(** X10. An invocation that returns has made the remote call: its output
    is the normalised form of a raw response that [invoke_agent] returned
    for this agent id, alias id and query, under a token drawn for the
    call. *)
Theorem invocation_output_origin (r a al q : string) (w w' : world C) (out : dict) :
  _invoke_bedrock_agent C r a al q w = (Ok out, w') ->
  exists (c : client C) (t : string) (resp : dict) (e3 : env C),
    invoke_agent C c a al t q e3 = (Ok resp, w_env w') /\
    normalize_response resp = Ok out /\
    w_log w' = w_log w ++ [ImportBoto3; Boto3Client "bedrock-agent-runtime" r;
                           Uuid4 t; InvokeAgent a al t q].
Proof.
  unfold_invocation.
  destruct (import_boto3 C (w_env w)) as [[[]|e0] e1]; cbn; [|done].
  destruct (boto3_client C _ r e1) as [[c|e0] e2]; cbn; [|done].
  destruct (uuid4 C e2) as [t e3] eqn:Hu; cbn.
  destruct (invoke_agent C c a al t q e3) as [[resp|e0] e4] eqn:Hr; cbn; [|done].
  destruct (normalize_response resp) as [out'|] eqn:Hn; [|done].
  intros [= <- <-]. cbn. exists c, t, resp, e3.
  split_and!; [done|done|by rewrite <- !app_assoc].
Qed.

(** X11. The calls made for a request are the calls of its agents, group
    after group in the order of the agents: each group starts with the
    import, and holds a token and a remote call only after a client was
    built; an agent whose result is an output has the full group. *)
Theorem request_trace (payload : QueryAgentsRequest) (w : world C) :
  agents payload <> [] ->
  exists os evs w',
    query_agents C payload w =
      (Ok {| resp_query := query payload;
             results := zip_with to_AgentResponse (agents payload) os |}, w') /\
    w_log w' = w_log w ++ evs /\
    batch_trace (query payload) (agents payload) os evs.
Proof.
  intros Hne. rewrite query_agents_run by done.
  destruct (invocations C (agents payload) (query payload) w) as [os w'] eqn:Hi.
  apply invocations_trace in Hi as (evs & Hlog & Ht).
  by exists os, evs, w'.
Qed.

(** X12. No retries: a request makes at most one remote call per agent,
    and it reports no more successes than it made remote calls. *)
Theorem no_retries (payload : QueryAgentsRequest) (w : world C) :
  agents payload <> [] ->
  exists R evs w',
    query_agents C payload w = (Ok R, w') /\
    w_log w' = w_log w ++ evs /\
    successes (results R) <= length (session_ids evs) /\
    length (session_ids evs) <= length (agents payload).
Proof.
  intros Hne. rewrite query_agents_run by done.
  destruct (invocations C (agents payload) (query payload) w) as [os w'] eqn:Hi.
  apply invocations_trace in Hi as (evs & Hlog & Ht).
  apply batch_trace_counts in Ht as [H1 H2].
  eexists _, evs, w'. split; [reflexivity|]. by cbn [results].
Qed.

(** X13. The service calls nothing but what the request names: the
    remote calls, in order, are calls to agents of the request with their
    own alias and the request's query, and the clients are asked for the
    service ["bedrock-agent-runtime"] in regions of the request, both in
    the order of the agents. *)
Theorem remote_targets_follow_agents (payload : QueryAgentsRequest) (w : world C) :
  agents payload <> [] ->
  exists R evs w',
    query_agents C payload w = (Ok R, w') /\
    w_log w' = w_log w ++ evs /\
    invoke_targets evs `sublist_of` (target_of (query payload) <$> agents payload) /\
    client_requests evs `sublist_of` (client_of <$> agents payload).
Proof.
  intros Hne. rewrite query_agents_run by done.
  destruct (invocations C (agents payload) (query payload) w) as [os w'] eqn:Hi.
  apply invocations_trace in Hi as (evs & Hlog & Ht).
  apply batch_trace_targets in Ht as [H1 H2].
  eexists _, evs, w'. by split.
Qed.

Lemma invocations_no_boto3 (l : list AgentInput) (q : string) (w : world C) :
  (forall e, exists x e', import_boto3 C e = (Raise x, e')) ->
  exists os w',
    invocations C l q w = (os, w') /\
    zip_with to_AgentResponse l os = boto3_missing <$> l /\
    w_log w' = w_log w ++ replicate (length l) ImportBoto3.
Proof.
  intros Hno. revert w. induction l as [|agent l IH]; intros w; cbn [invocations].
  - exists [], w. by rewrite app_nil_r.
  - destruct (Hno (w_env w)) as (x & e' & Hi).
    rewrite (invoke_without_boto3 C _ _ _ q w x e' Hi).
    destruct (IH {| w_env := e'; w_log := w_log w ++ [ImportBoto3] |})
      as (os & w' & -> & Hz & Hlog).
    eexists _, w'. split; [reflexivity|]. cbn. rewrite Hz. split; [done|].
    rewrite Hlog. cbn. by rewrite <- app_assoc.
Qed.

(** X14. Where [boto3] cannot be imported, every agent of every request
    gets the same failed result with the message of line 84, and the
    service calls nothing else: no client is asked for, no token drawn, no
    remote call made. *)
Theorem without_boto3_nothing_is_called (payload : QueryAgentsRequest) (w : world C) :
  (forall e, exists x e', import_boto3 C e = (Raise x, e')) ->
  agents payload <> [] ->
  exists w',
    query_agents C payload w =
      (Ok {| resp_query := query payload;
             results := boto3_missing <$> agents payload |}, w') /\
    w_log w' = w_log w ++ replicate (length (agents payload)) ImportBoto3.
Proof.
  intros Hno Hne. rewrite query_agents_run by done.
  destruct (invocations_no_boto3 (agents payload) (query payload) w Hno)
    as (os & w' & -> & Hz & Hlog).
  exists w'. by rewrite Hz.
Qed.

(** X15. The handler has two outcomes only: a response with one result
    per agent when there is an agent, and the [HTTPException] of status
    400, raised before anything is called, when there is none.  No
    exception of a collaborator ever leaves it. *)
Theorem handler_raises_only_400 (payload : QueryAgentsRequest) (w : world C) :
  match query_agents C payload w with
  | (Ok R, _) =>
      agents payload <> [] /\ resp_query R = query payload /\
      length (results R) = length (agents payload)
  | (Raise e, w') =>
      agents payload = [] /\ e = HTTPException 400 no_agents /\ w' = w
  end.
Proof.
  destruct (agents payload) as [|agent l] eqn:Hl.
  - by rewrite query_agents_empty.
  - rewrite query_agents_run by (by rewrite Hl). rewrite Hl.
    pose proof (invocations_length C (agent :: l) (query payload) w) as Hlen.
    destruct (invocations C (agent :: l) (query payload) w) as [os w'].
    cbn [fst] in Hlen. cbn [resp_query results]. split_and!; [done|done|].
    rewrite length_zip_with. lia.
Qed.

Lemma not_all_serialisable (os : list (outcome dict)) :
  forallb outcome_serialisable os = false ->
  exists i out, os !! i = Some (Ok out) /\ json_serialisable (VDict out) = false.
Proof.
  induction os as [|o os IH]; cbn [forallb]; [done|].
  destruct (outcome_serialisable o) eqn:Ho; cbn [andb].
  - intros (i & out & Hi & Hs)%IH. by exists (S i), out.
  - intros _. destruct o as [out|e]; [|done]. by exists 0, out.
Qed.

(** X16. The status of the route: 422 when the body fails validation,
    else 400 when it names no agent, else 200 when the output of every
    successful invocation can be encoded and 500 when one cannot.
    Validation comes first, and no failure of an invocation changes the
    status: a 500 means that some invocation returned an output that
    cannot be encoded. *)
Theorem route_status_cases (b : RequestJson) (w : world C) :
  status (fst (post_query_agents isspace C b w)) =
    match validate_QueryAgentsRequest isspace b with
    | None => 422
    | Some payload =>
        match agents payload with
        | [] => 400
        | _ :: _ =>
            if forallb outcome_serialisable
                 (fst (invocations C (agents payload) (query payload) w))
            then 200 else 500
        end
    end%Z /\
  (status (fst (post_query_agents isspace C b w)) = 500%Z ->
   exists payload i out,
     validate_QueryAgentsRequest isspace b = Some payload /\
     fst (invocations C (agents payload) (query payload) w) !! i = Some (Ok out) /\
     json_serialisable (VDict out) = false).
Proof.
  destruct (validate_QueryAgentsRequest isspace b) as [payload|] eqn:Hv.
  2: { unfold post_query_agents. rewrite Hv. by split. }
  destruct (agents payload) as [|agent l] eqn:Hl.
  - unfold post_query_agents. rewrite Hv, query_agents_empty by done. by split.
  - rewrite (post_query_agents_run isspace C b payload w Hv) by (by rewrite Hl).
    rewrite Hl.
    destruct (invocations C (agent :: l) (query payload) w) as [os w'] eqn:Hinv.
    cbn [fst].
    destruct (forallb outcome_serialisable os) eqn:Hs; cbn [fst status].
    + by split.
    + split; [done|]. intros _.
      destruct (not_all_serialisable os Hs) as (i & out & Hi & Ho).
      exists payload, i, out. by rewrite Hl, Hinv.
Qed.

(** X17. A batch splits: handling the agents [l1 ++ l2] in one request
    gives the results of a request for [l1] followed by those of a request
    for [l2] served next with the same query, and leaves the same
    world. *)
Theorem batch_splits (l1 l2 : list AgentInput) (q : string) (w : world C) :
  l1 <> [] -> l2 <> [] ->
  exists R1 w1 R2 w2,
    query_agents C {| agents := l1; query := q |} w = (Ok R1, w1) /\
    query_agents C {| agents := l2; query := q |} w1 = (Ok R2, w2) /\
    query_agents C {| agents := l1 ++ l2; query := q |} w =
      (Ok {| resp_query := q; results := results R1 ++ results R2 |}, w2).
Proof.
  intros H1 H2.
  assert (H12 : l1 ++ l2 <> []) by (by destruct l1).
  pose proof (query_agents_run C {| agents := l1; query := q |} w H1) as Q1.
  pose proof (query_agents_run C {| agents := l1 ++ l2; query := q |} w H12) as Q12.
  cbn [agents query] in Q1, Q12. rewrite invocations_app in Q12.
  pose proof (invocations_length C l1 q w) as Hlen.
  destruct (invocations C l1 q w) as [os1 w1]. cbn [fst] in Hlen.
  pose proof (query_agents_run C {| agents := l2; query := q |} w1 H2) as Q2.
  cbn [agents query] in Q2.
  destruct (invocations C l2 q w1) as [os2 w2].
  eexists _, w1, _, w2. split_and!; [exact Q1|exact Q2|].
  rewrite Q12. cbn [results]. by rewrite zip_with_app.
Qed.

End MoreServiceFacts.

(** ** The further properties on the sample instances *)

Lemma validation_round_trip_witness :
  validate_QueryAgentsRequest ascii_isspace
    (json_of_request {| agents := [agent_A]; query := "what is reflux?" |}) =
  Some {| agents := [agent_A]; query := "what is reflux?" |}.
Proof.
  apply (validation_round_trip ascii_isspace padded_json). reflexivity.
Defined.

Lemma validated_fields_not_blank_witness :
  blank ascii_isspace (query sample_payload) = false /\
  Forall (nonblank_agent ascii_isspace) (agents sample_payload).
Proof.
  apply (validated_fields_not_blank ascii_isspace sample_json). reflexivity.
Defined.

Lemma normalize_ignores_unknown_keys_witness :
  normalize_response hello_response = normalize_response noisy_response.
Proof.
  apply normalize_ignores_unknown_keys. intros k Hk.
  unfold noisy_response. rewrite lookup_insert_ne; [done|].
  intros <-. unfold known_keys in Hk.
  repeat (apply elem_of_cons in Hk as [Hk|Hk]; [discriminate|]).
  by apply elem_of_nil in Hk.
Defined.

Lemma invocation_success_path_witness :
  exists out,
    normalize_response (sample_answer "uuid-0" "hi") = Ok out /\
    _invoke_bedrock_agent stub_aws "us-east-1" "AGENT1" "ALIAS1" "hi"
      (fresh_world stub_aws 0%nat) =
      (Ok out,
       (Build_world stub_aws 1%nat
          [ImportBoto3; Boto3Client "bedrock-agent-runtime" "us-east-1";
                    Uuid4 "uuid-0"; InvokeAgent "AGENT1" "ALIAS1" "uuid-0" "hi"])).
Proof.
  apply (invocation_success_path stub_aws "us-east-1" "AGENT1" "ALIAS1" "hi" "uuid-0"
           (fresh_world stub_aws 0%nat) "us-east-1" (sample_answer "uuid-0" "hi")
           0%nat 0%nat 1%nat 1%nat); reflexivity.
Defined.

Lemma invocation_remote_failure_witness :
  _invoke_bedrock_agent stub_aws "eu-west-1" "DOWN" "ALIAS2" "hi"
    (fresh_world stub_aws 0%nat) =
    (Raise down_error,
     (Build_world stub_aws 1%nat
          [ImportBoto3; Boto3Client "bedrock-agent-runtime" "eu-west-1";
                  Uuid4 "uuid-0"; InvokeAgent "DOWN" "ALIAS2" "uuid-0" "hi"])).
Proof.
  apply (invocation_remote_failure stub_aws "eu-west-1" "DOWN" "ALIAS2" "hi" "uuid-0"
           (fresh_world stub_aws 0%nat) "eu-west-1" down_error
           0%nat 0%nat 1%nat 1%nat); reflexivity.
Defined.

Lemma invocation_output_origin_witness :
  exists (c : client stub_aws) (t : string) (resp : dict) (e3 : env stub_aws),
    invoke_agent stub_aws c "AGENT1" "ALIAS1" t "hi" e3 = (Ok resp, 1%nat) /\
    normalize_response resp = Ok (<["text" := VStr "echo: hi"]> (sample_answer "uuid-0" "hi")) /\
    [ImportBoto3; Boto3Client "bedrock-agent-runtime" "us-east-1";
     Uuid4 "uuid-0"; InvokeAgent "AGENT1" "ALIAS1" "uuid-0" "hi"] =
    [ImportBoto3; Boto3Client "bedrock-agent-runtime" "us-east-1";
     Uuid4 t; InvokeAgent "AGENT1" "ALIAS1" t "hi"].
Proof.
  apply (invocation_output_origin stub_aws "us-east-1" "AGENT1" "ALIAS1" "hi"
           (fresh_world stub_aws 0%nat)
           (Build_world stub_aws 1%nat
          [ImportBoto3; Boto3Client "bedrock-agent-runtime" "us-east-1";
                        Uuid4 "uuid-0"; InvokeAgent "AGENT1" "ALIAS1" "uuid-0" "hi"])).
  reflexivity.
Defined.

Lemma request_trace_witness :
  exists os evs w',
    query_agents stub_aws sample_payload (fresh_world stub_aws 0%nat) =
      (Ok {| resp_query := query sample_payload;
             results := zip_with to_AgentResponse (agents sample_payload) os |}, w') /\
    w_log w' = evs /\
    batch_trace (query sample_payload) (agents sample_payload) os evs.
Proof.
  apply (request_trace stub_aws sample_payload (fresh_world stub_aws 0%nat)).
  discriminate.
Defined.

Lemma no_retries_witness :
  exists R evs w',
    query_agents stub_aws sample_payload (fresh_world stub_aws 0%nat) = (Ok R, w') /\
    w_log w' = evs /\
    successes (results R) <= length (session_ids evs) /\
    length (session_ids evs) <= 3.
Proof.
  apply (no_retries stub_aws sample_payload (fresh_world stub_aws 0%nat)).
  discriminate.
Defined.

Lemma remote_targets_follow_agents_witness :
  exists R evs w',
    query_agents stub_aws sample_payload (fresh_world stub_aws 0%nat) = (Ok R, w') /\
    w_log w' = evs /\
    invoke_targets evs `sublist_of`
      (target_of (query sample_payload) <$> agents sample_payload) /\
    client_requests evs `sublist_of` (client_of <$> agents sample_payload).
Proof.
  apply (remote_targets_follow_agents stub_aws sample_payload (fresh_world stub_aws 0%nat)).
  discriminate.
Defined.

Lemma without_boto3_nothing_is_called_witness :
  exists w',
    query_agents no_boto3 sample_payload (fresh_world no_boto3 0%nat) =
      (Ok {| resp_query := query sample_payload;
             results := boto3_missing <$> agents sample_payload |}, w') /\
    w_log w' = [ImportBoto3; ImportBoto3; ImportBoto3].
Proof.
  apply (without_boto3_nothing_is_called no_boto3 sample_payload
           (fresh_world no_boto3 0%nat)).
  - intros e. eexists _, _. reflexivity.
  - discriminate.
Defined.

Lemma batch_splits_witness :
  exists R1 w1 R2 w2,
    query_agents stub_aws {| agents := [agent_A]; query := "hi" |}
      (fresh_world stub_aws 0%nat) = (Ok R1, w1) /\
    query_agents stub_aws {| agents := [agent_down; agent_B]; query := "hi" |} w1
      = (Ok R2, w2) /\
    query_agents stub_aws {| agents := [agent_A; agent_down; agent_B]; query := "hi" |}
      (fresh_world stub_aws 0%nat) =
      (Ok {| resp_query := "hi"; results := results R1 ++ results R2 |}, w2).
Proof.
  apply (batch_splits stub_aws [agent_A] [agent_down; agent_B] "hi"
           (fresh_world stub_aws 0%nat)); discriminate.
Defined.
